(** * Jetski Pool XMR tracker: fetch-with-fallback pipeline and threat scorer

    A shallow embedding of [scripts/jetski_tracker_integration.py].

    Python [float]s are IEEE 754 binary64 numbers; they are modelled by Rocq's
    primitive [float]s, whose operations are specified by [SpecFloat] through
    the axioms of [FloatAxioms].  Python [int]s are unbounded and modelled by
    [Z].  The HTTP endpoints are the environment: every call of
    [session.get] is given its outcome as an argument. *)

From Stdlib Require Import ZArith List String Ascii Bool Lia Floats.
From Stdlib Require Import Permutation.
From Stdlib Require Uint63.
Import ListNotations.

Set Warnings "-inexact-float,-register-all".

Local Open Scope string_scope.
Local Open Scope Z_scope.

(** ** The Python runtime fragment the script uses *)

Module Py.

(** The exceptions that occur in the script.  [KeyboardInterrupt] derives
    from [BaseException] only; all the others derive from [Exception]. *)
Inductive exn : Type :=
| KeyboardInterrupt
| Timeout
| ConnectionError
| JSONDecodeError
| KeyError
| TypeError
| AttributeError
| ValueError
| OverflowError
| ZeroDivisionError
| OSError.

Definition is_Exception (e : exn) : bool :=
  match e with
  | KeyboardInterrupt => false
  | _ => true
  end.

(** The outcome of running a piece of Python code.  The dataclass annotates
    the types of the fetched fields ([float], [int], [str]); a JSON document
    that carries a value of another type where arithmetic is done on it
    leaves the typed model: [Untyped]. *)
Inductive result (A : Type) : Type :=
| Returns (a : A)
| Raises (e : exn)
| Untyped.
Arguments Returns {A} a.
Arguments Raises {A} e.
Arguments Untyped {A}.

Definition bind {A B} (c : result A) (k : A -> result B) : result B :=
  match c with
  | Returns a => k a
  | Raises e => Raises e
  | Untyped => Untyped
  end.

(** What a [try] block does when it raises nothing: it executes a [return]
    statement, or it runs to its end. *)
Inductive flow (A : Type) : Type :=
| Return (a : A)
| Fallthrough.
Arguments Return {A} a.
Arguments Fallthrough {A}.

(** [try: body / except: pass], followed by [rest]. *)
Definition try_except {A} (body : result (flow A)) (rest : result A)
  : result A :=
  match body with
  | Returns (Return a) => Returns a
  | Returns Fallthrough => rest
  | Raises _ => rest
  | Untyped => Untyped
  end.

(** [try: body / except Exception as e: print(..)], followed by [rest]. *)
Definition try_except_Exception {A} (body : result (flow A))
    (rest : result A) : result A :=
  match body with
  | Returns (Return a) => Returns a
  | Returns Fallthrough => rest
  | Raises e => if is_Exception e then rest else Raises e
  | Untyped => Untyped
  end.

(** Values that [json] parsing produces. *)
Inductive pyval : Type :=
| PNone
| PBool (b : bool)
| PInt (z : Z)
| PFloat (f : float)
| PStr (s : string)
| PList (l : list pyval)
| PDict (d : list (string * pyval)).

Fixpoint lookup (d : list (string * pyval)) (k : string) : option pyval :=
  match d with
  | [] => None
  | (k', v) :: d' => if String.eqb k' k then Some v else lookup d' k
  end.

(** [data.get(k, default)]: only a [dict] has the method. *)
Definition get (data : pyval) (k : string) (default : pyval)
  : result pyval :=
  match data with
  | PDict d =>
      match lookup d k with
      | Some v => Returns v
      | None => Returns default
      end
  | _ => Raises AttributeError
  end.

(** [data[k]] for a string [k]. *)
Definition subscript (data : pyval) (k : string) : result pyval :=
  match data with
  | PDict d =>
      match lookup d k with
      | Some v => Returns v
      | None => Raises KeyError
      end
  | _ => Raises TypeError
  end.

(** The items a [for] loop sees: the elements of a list, the keys of a
    dict, the characters of a string (bytes here). *)
Definition iter (v : pyval) : result (list pyval) :=
  match v with
  | PList l => Returns l
  | PDict d => Returns (map (fun kv => PStr (fst kv)) d)
  | PStr s =>
      Returns (map (fun c => PStr (String c EmptyString))
                   (list_ascii_of_string s))
  | _ => Raises TypeError
  end.

(** A list comprehension [[f p for p in items]]. *)
Fixpoint comprehension {A B} (f : A -> result B) (items : list A)
  : result (list B) :=
  match items with
  | [] => Returns []
  | p :: items' =>
      bind (f p) (fun b =>
      bind (comprehension f items') (fun bs => Returns (b :: bs)))
  end.

(** The values of the annotated types. *)
Definition as_float (v : pyval) : result float :=
  match v with PFloat f => Returns f | _ => Untyped end.

Definition as_int (v : pyval) : result Z :=
  match v with PInt z => Returns z | _ => Untyped end.

Definition as_str (v : pyval) : result string :=
  match v with PStr s => Returns s | _ => Untyped end.

(** [min(a, b)] and [max(a, b)] keep their first argument unless the
    second compares strictly below (above) it. *)
Definition min2 (a b : float) : float := if (b <? a)%float then b else a.
Definition max2 (a b : float) : float := if (a <? b)%float then b else a.

(** [max(iterable)]: [ValueError] on an empty one. *)
Definition max_of (l : list float) : result float :=
  match l with
  | [] => Raises ValueError
  | x :: l' => Returns (fold_left max2 l' x)
  end.

(** [max(iterable, default=d)] on integers. *)
Definition max_default (l : list Z) (d : Z) : Z :=
  match l with
  | [] => d
  | x :: l' => fold_left (fun a b => if Z.ltb a b then b else a) l' x
  end.

(** Conversion of an [int] to a [float], as the division of an [int] by a
    [float] does it: to the nearest binary64 number, ties to even, and
    [OverflowError] when that is beyond the largest finite one. *)
Definition float_of_int (n : Z) : result float :=
  match binary_normalize prec emax n 0 false with
  | S754_infinity _ => Raises OverflowError
  | s => Returns (SF2Prim s)
  end.

(** [n / d] for an [int] [n] and a non-zero [float] literal [d]. *)
Definition int_truediv (n : Z) (d : float) : result float :=
  bind (float_of_int n) (fun x => Returns (x / d)%float).

(** [needle in hay] on strings. *)
Fixpoint str_contains (needle hay : string) : bool :=
  String.prefix needle hay
  || match hay with
     | EmptyString => false
     | String _ hay' => str_contains needle hay'
     end.

End Py.

Export Py.

Notation "x <- c ;; k" := (Py.bind c (fun x => k))
  (at level 61, c at next level, right associativity).

(** ** The tracker client *)

(** [JetskiTrackerData]: the snapshot. *)
Record JetskiTrackerData : Type := {
  network_hashrate : float;
  qubic_hashrate : float;
  orphaned_blocks : Z;
  block_withholding_score : float;
  pool_distribution : list (string * float);
  last_reorg_depth : Z;
  timestamp : float;
  xmr_price : float
}.

(** An HTTP response: its status code, and its body parsed as JSON when it
    parses ([response.json()] raises otherwise). *)
Record response : Type := {
  status_code : Z;
  json : option pyval
}.

(** What one [session.get(url, timeout=5)] does. *)
Inductive get_outcome : Type :=
| GetRaises (e : exn)
| GetReturns (r : response).

Definition session_get (o : get_outcome) : result response :=
  match o with
  | GetRaises e => Raises e
  | GetReturns r => Returns r
  end.

Definition response_json (r : response) : result pyval :=
  match json r with
  | Some v => Returns v
  | None => Raises JSONDecodeError
  end.

(** The client object: the seed and the HTTP session. *)
Record JetskiTrackerClient : Type := {
  seed : Z;
  session_headers : list (string * string)
}.

Definition new_client (seed : Z) : JetskiTrackerClient :=
  {| seed := seed;
     session_headers :=
       [("User-Agent", "MoneroRentalHashWar-OpenGame/1.0 (Research Tool)");
        ("Accept", "application/json")] |}.

Section Fetch.

Definition fetch_network_hashrate (primary fallback : get_outcome)
  : result pyval :=
  try_except_Exception
    (response <- session_get primary ;;
     if status_code response =? 200 then
       data <- response_json response ;;
       v <- Py.get data "hashrate_ghs" (PFloat 4.97) ;;
       Returns (Return v)
     else Returns Fallthrough)
    (try_except
       (response <- session_get fallback ;;
        if status_code response =? 200 then Returns (Return (PFloat 4.97))
        else Returns Fallthrough)
       (Returns (PFloat 4.97))).

Definition fetch_orphaned_blocks (o : get_outcome) : result pyval :=
  try_except
    (response <- session_get o ;;
     if status_code response =? 200 then
       data <- response_json response ;;
       v <- Py.get data "orphaned_24h" (PInt 0) ;;
       Returns (Return v)
     else Returns Fallthrough)
    (Returns (PInt 0)).

Definition default_pool_distribution : list (pyval * pyval) :=
  [ (PStr "Qubic", PFloat 0.15);
    (PStr "MineXMR", PFloat 0.20);
    (PStr "SupportXMR", PFloat 0.18);
    (PStr "Hashvault", PFloat 0.12);
    (PStr "Others", PFloat 0.35) ].

Definition fetch_pool_distribution (o : get_outcome)
  : result (list (pyval * pyval)) :=
  try_except
    (response <- session_get o ;;
     if status_code response =? 200 then
       data <- response_json response ;;
       pools <- Py.get data "pools" (PList []) ;;
       items <- Py.iter pools ;;
       l <- comprehension
              (fun p =>
                 name <- subscript p "name" ;;
                 share <- subscript p "share" ;;
                 Returns (name, share))
              items ;;
       Returns (Return l)
     else Returns Fallthrough)
    (Returns default_pool_distribution).

Definition fetch_xmr_price (o : get_outcome) : result pyval :=
  try_except
    (response <- session_get o ;;
     if status_code response =? 200 then
       data <- response_json response ;;
       monero <- subscript data "monero" ;;
       usd <- subscript monero "usd" ;;
       Returns (Return usd)
     else Returns Fallthrough)
    (Returns (PFloat 167.0)).

Definition fetch_latest_reorg (o : get_outcome) : result pyval :=
  try_except
    (response <- session_get o ;;
     if status_code response =? 200 then
       data <- response_json response ;;
       reorgs <- Py.get data "reorgs" (PList []) ;;
       items <- Py.iter reorgs ;;
       depths <- comprehension (fun r => subscript r "depth") items ;;
       ds <- comprehension as_int depths ;;
       Returns (Return (PInt (max_default ds 0)))
     else Returns Fallthrough)
    (Returns (PInt 0)).

End Fetch.

(** ** The withholding score

    The local variables of [calculate_withholding_score] are definitions of
    their own, in the order the method computes them. *)

(** [orphan_score = min(orphaned_blocks / 20.0, 1.0)] *)
Definition orphan_score (orphaned_blocks : Z) : result float :=
  x <- int_truediv orphaned_blocks 20.0 ;;
  Returns (min2 x 1.0).

(** [max_pool_share = max(share for _, share in pool_dist)] *)
Definition max_pool_share (pool_dist : list (string * float)) : result float :=
  max_of (map snd pool_dist).

(** [concentration_score = max(0, (max_pool_share - 0.3) / 0.2)].  When the
    quotient is not above zero, [max] returns the [int] 0, which the
    multiplication by 0.3 that follows converts to the float 0.0. *)
Definition concentration_score (max_pool_share : float) : float :=
  max2 0 ((max_pool_share - 0.3) / 0.2)%float.

(** [combined = (orphan_score * 0.7 + concentration_score * 0.3)] *)
Definition combined (orphan_score concentration_score : float) : float :=
  (orphan_score * 0.7 + concentration_score * 0.3)%float.

(** [seed_offset = (self.seed % 100) / 10000.0] *)
Definition seed_offset (self : JetskiTrackerClient) : result float :=
  int_truediv (seed self mod 100) 10000.0.

Definition calculate_withholding_score (self : JetskiTrackerClient)
    (orphaned_blocks : Z) (pool_dist : list (string * float)) : result float :=
  orphan <- orphan_score orphaned_blocks ;;
  share <- max_pool_share pool_dist ;;
  let concentration := concentration_score share in
  let combined := combined orphan concentration in
  offset <- seed_offset self ;;
  Returns (min2 (combined + offset)%float 1.0).

(** ** Building a snapshot *)

(** The environment of one call of [fetch_all]: what each endpoint answers,
    and the clock. *)
Record network : Type := {
  hashrate_api : get_outcome;
  hashrate_fallback : get_outcome;
  pools_api : get_outcome;
  orphaned_api : get_outcome;
  reorgs_api : get_outcome;
  price_api : get_outcome;
  time_time : float
}.

(** [next((share for name, share in pool_distribution if "Qubic" in name), 0.0)] *)
Definition qubic_share (pool_distribution : list (string * float)) : float :=
  match find (fun entry => str_contains "Qubic" (fst entry)) pool_distribution with
  | Some (_, share) => share
  | None => 0
  end.

(** A fetched pool distribution at its annotated type,
    [List[Tuple[str, float]]]. *)
Definition typed_pool (l : list (pyval * pyval))
  : result (list (string * float)) :=
  comprehension
    (fun entry =>
       name <- as_str (fst entry) ;;
       share <- as_float (snd entry) ;;
       Returns (name, share))
    l.

Definition fetch_all (self : JetskiTrackerClient) (env : network)
  : result JetskiTrackerData :=
  network_hashrate <- fetch_network_hashrate (hashrate_api env)
                        (hashrate_fallback env) ;;
  pool_distribution <- fetch_pool_distribution (pools_api env) ;;
  orphaned_blocks <- fetch_orphaned_blocks (orphaned_api env) ;;
  last_reorg_depth <- fetch_latest_reorg (reorgs_api env) ;;
  xmr_price <- fetch_xmr_price (price_api env) ;;
  network_hashrate <- as_float network_hashrate ;;
  pool_distribution <- typed_pool pool_distribution ;;
  orphaned_blocks <- as_int orphaned_blocks ;;
  last_reorg_depth <- as_int last_reorg_depth ;;
  xmr_price <- as_float xmr_price ;;
  let qubic_share := qubic_share pool_distribution in
  let qubic_hashrate := (network_hashrate * qubic_share)%float in
  withholding_score <- calculate_withholding_score self orphaned_blocks
                         pool_distribution ;;
  Returns {| network_hashrate := network_hashrate;
             qubic_hashrate := qubic_hashrate;
             orphaned_blocks := orphaned_blocks;
             block_withholding_score := withholding_score;
             pool_distribution := pool_distribution;
             last_reorg_depth := last_reorg_depth;
             timestamp := time_time env;
             xmr_price := xmr_price |}.

(** ** The command: single fetch and watch loop *)

Record args : Type := {
  output : string;
  watch : bool;
  interval : Z;
  haskell : bool;
  arg_seed : Z
}.

Inductive threat : Type := CRITICAL | HIGH | MODERATE | LOW.

(** The threat assessment of the watch display. *)
Definition threat_assessment (score : float) : threat :=
  if (0.85 <? score)%float then CRITICAL
  else if (0.6 <? score)%float then HIGH
  else if (0.3 <? score)%float then MODERATE
  else LOW.

(** What the output file holds: the snapshot, in one of the two formats. *)
Inductive file_content : Type :=
| HaskellFormat (data : JetskiTrackerData)
| JsonDump (data : JetskiTrackerData).

Inductive console_line : Type :=
| ThreatLine (t : threat)
| MonitoringStopped
| DataSaved.

(** The state the command acts on: the file at [args.output] and the lines
    printed so far (latest first). *)
Record world : Type := {
  output_file : option file_content;
  console : list console_line
}.

Definition print (l : console_line) (w : world) : world :=
  {| output_file := output_file w; console := l :: console w |}.

(** The environment of one round of the loop: the endpoints, whether
    [open(args.output, 'w')] fails, and whether Ctrl+C arrives during
    [time.sleep]. *)
Record tick : Type := {
  net : network;
  open_fails : bool;
  ctrl_c : bool
}.

(** [with open(args.output, 'w') as f: ...] *)
Definition save (a : args) (data : JetskiTrackerData) (t : tick) (w : world)
  : world * result unit :=
  if open_fails t then (w, Raises OSError)
  else
    ({| output_file :=
          Some (if haskell a then HaskellFormat data else JsonDump data);
        console := console w |},
     Returns tt).

(** The longest sleep, in seconds: [time.sleep] first converts its argument
    to a signed 64-bit number of nanoseconds, and (2 ^ 63 - 1) / 10 ^ 9 is
    9223372036. *)
Definition sleep_max : Z := 9223372036.

(** [time.sleep(args.interval)] for the [int] that [argparse] made of
    [--interval]: [OverflowError] when the seconds do not fit the 64-bit
    nanoseconds, on either side of zero; then [ValueError] when they are
    below zero; then the sleep, which Ctrl+C interrupts. *)
Definition sleep (a : args) (t : tick) : result unit :=
  if (interval a <? - sleep_max) || (sleep_max <? interval a)
  then Raises OverflowError
  else if interval a <? 0 then Raises ValueError
  else if ctrl_c t then Raises KeyboardInterrupt
  else Returns tt.

(** The body of [while True:]. *)
Definition watch_body (a : args) (client : JetskiTrackerClient) (t : tick)
    (w : world) : world * result unit :=
  match fetch_all client (net t) with
  | Returns data =>
      (* data.qubic_hashrate / data.network_hashrate * 100 *)
      if (network_hashrate data =? 0)%float then (w, Raises ZeroDivisionError)
      else
        let w := print (ThreatLine
                          (threat_assessment (block_withholding_score data)))
                   w in
        match save a data t w with
        | (w, Returns _) => (w, sleep a t)
        | (w, Raises e) => (w, Raises e)
        | (w, Untyped) => (w, Untyped)
        end
  | Raises e => (w, Raises e)
  | Untyped => (w, Untyped)
  end.

(** How the command stands after the rounds it was given: still looping,
    returned from [main], or ended by an uncaught exception. *)
Inductive status : Type :=
| Running
| Exited
| Crashed (e : exn)
| OutsideModel.

(** [try: while True: ... / except KeyboardInterrupt: print(..)] *)
Fixpoint watch_loop (a : args) (client : JetskiTrackerClient)
    (ticks : list tick) (w : world) : world * status :=
  match ticks with
  | [] => (w, Running)
  | t :: ticks' =>
      match watch_body a client t w with
      | (w, Returns _) => watch_loop a client ticks' w
      | (w, Raises KeyboardInterrupt) => (print MonitoringStopped w, Exited)
      | (w, Raises e) => (w, Crashed e)
      | (w, Untyped) => (w, OutsideModel)
      end
  end.

(** The [else] branch of [main]: one fetch, one save. *)
Definition single_fetch (a : args) (client : JetskiTrackerClient) (t : tick)
    (w : world) : world * status :=
  match fetch_all client (net t) with
  | Returns data =>
      match save a data t w with
      | (w, Returns _) => (print DataSaved w, Exited)
      | (w, Raises e) => (w, Crashed e)
      | (w, Untyped) => (w, OutsideModel)
      end
  | Raises e => (w, Crashed e)
  | Untyped => (w, OutsideModel)
  end.

Definition main (a : args) (ticks : list tick) (w : world) : world * status :=
  let client := new_client (arg_seed a) in
  if watch a then watch_loop a client ticks w
  else
    match ticks with
    | [] => (w, Running)
    | t :: _ => single_fetch a client t w
    end.

(** ** Specification vocabulary *)

(** A source is unavailable when the request raises an error (a timeout, a
    transport error), when the answer is not a 200, or when the body of a
    200 is not JSON. *)
Definition unavailable (o : get_outcome) : bool :=
  match o with
  | GetRaises e => is_Exception e
  | GetReturns r =>
      negb (status_code r =? 200)
      || match json r with Some _ => false | None => true end
  end.

Definition all_sources_fail (env : network) : bool :=
  unavailable (hashrate_api env)
  && unavailable (pools_api env)
  && unavailable (orphaned_api env)
  && unavailable (reorgs_api env)
  && unavailable (price_api env).

(** The default distribution of [fetch_pool_distribution], at its
    annotated type. *)
Definition baseline_distribution : list (string * float) :=
  [ ("Qubic", 0.15%float);
    ("MineXMR", 0.20%float);
    ("SupportXMR", 0.18%float);
    ("Hashvault", 0.12%float);
    ("Others", 0.35%float) ].

(** [0 <= x <= 1] on floats; a NaN is outside. *)
Definition in_unit_interval (x : float) : Prop :=
  (0 <=? x)%float = true /\ (x <=? 1)%float = true.

(** The spec's words for the match of a pool name: the name contains the
    identifier as a substring. *)
Definition contains_substring (needle hay : string) : Prop :=
  exists pre post, hay = (pre ++ needle ++ post)%string.

Definition returns {A} (r : result A) : bool :=
  match r with Returns _ => true | _ => false end.

Definition not_nan (x : float) : bool := negb (is_nan x).

(** *** Documents, rounds and threat levels *)

(** A field of a JSON object: nothing when the value is not an object or
    the object has no such key. *)
Definition field (v : pyval) (k : string) : option pyval :=
  match v with
  | PDict d => lookup d k
  | _ => None
  end.

(** The JSON body of an answer with status 200. *)
Definition body_of (o : get_outcome) : option pyval :=
  match o with
  | GetReturns r => if status_code r =? 200 then json r else None
  | GetRaises _ => None
  end.

(** An entry of the pools document that has both fields the fetcher reads. *)
Definition pool_entry (p : pyval) : option (pyval * pyval) :=
  match field p "name", field p "share" with
  | Some name, Some share => Some (name, share)
  | _, _ => None
  end.

(** The depth of an entry of the reorgs document, when it is an integer. *)
Definition reorg_depth (r : pyval) : option Z :=
  match field r "depth" with
  | Some (PInt z) => Some z
  | _ => None
  end.

(** A typed pool distribution as the JSON values the fetcher returns. *)
Definition untyped_pool (pools : list (string * float))
  : list (pyval * pyval) :=
  map (fun entry => (PStr (fst entry), PFloat (snd entry))) pools.


(** What [save] leaves in the output file. *)
Definition written (a : args) (data : JetskiTrackerData) : file_content :=
  if haskell a then HaskellFormat data else JsonDump data.

(** The threat levels, from the lowest to the highest. *)
Definition threat_rank (t : threat) : Z :=
  match t with
  | LOW => 0
  | MODERATE => 1
  | HIGH => 2
  | CRITICAL => 3
  end.


(** The orphan counts below the saturation point of the orphan component. *)
Definition counts_below_20 : list Z := map Z.of_nat (seq 0 20).

(** *** Concrete environments *)

Definition ok_response (body : pyval) : get_outcome :=
  GetReturns {| status_code := 200; json := Some body |}.

(** Every endpoint times out. *)
Definition all_down : network :=
  {| hashrate_api := GetRaises Timeout;
     hashrate_fallback := GetRaises Timeout;
     pools_api := GetRaises Timeout;
     orphaned_api := GetRaises Timeout;
     reorgs_api := GetRaises Timeout;
     price_api := GetRaises Timeout;
     time_time := 1762214400%float |}.

(** The pools endpoint answers 200 with [{"pools": []}]; the others time
    out. *)
Definition empty_pools : network :=
  {| hashrate_api := GetRaises Timeout;
     hashrate_fallback := GetRaises Timeout;
     pools_api := ok_response (PDict [("pools", PList [])]);
     orphaned_api := GetRaises Timeout;
     reorgs_api := GetRaises Timeout;
     price_api := GetRaises Timeout;
     time_time := 1762214400%float |}.

Definition watch_args : args :=
  {| output := "jetski_data.json";
     watch := true;
     interval := 60;
     haskell := false;
     arg_seed := 1069 |}.

Definition quiet_tick : tick :=
  {| net := all_down; open_fails := false; ctrl_c := false |}.


Definition fresh_world : world := {| output_file := None; console := [] |}.

(** The snapshot that [fetch_all] builds from [all_down] with seed 1069. *)
Definition all_down_snapshot : JetskiTrackerData :=
  {| network_hashrate := 4.97;
     qubic_hashrate := 0.74549999999999994;
     orphaned_blocks := 0;
     block_withholding_score := 0.081899999999999987;
     pool_distribution := baseline_distribution;
     last_reorg_depth := 0;
     timestamp := 1762214400;
     xmr_price := 167 |}.

(** A pools document with two well-formed entries, and one whose second
    entry has no share. *)
Definition two_pools : pyval :=
  PDict [("pools",
          PList [PDict [("name", PStr "Qubic"); ("share", PFloat 0.45)];
                 PDict [("name", PStr "Others"); ("share", PFloat 0.55)]])].

Definition two_pools_one_malformed : pyval :=
  PDict [("pools",
          PList [PDict [("name", PStr "Qubic"); ("share", PFloat 0.45)];
                 PDict [("name", PStr "Others")]])].

(** A reorgs document with three entries. *)
Definition three_reorgs : pyval :=
  PDict [("reorgs",
          PList [PDict [("depth", PInt 2)];
                 PDict [("depth", PInt 6)];
                 PDict [("depth", PInt 3)]])].

(** The hashrate endpoint reports 0.0; the other endpoints time out. *)
Definition zero_hashrate : network :=
  {| hashrate_api := ok_response (PDict [("hashrate_ghs", PFloat 0)]);
     hashrate_fallback := GetRaises Timeout;
     pools_api := GetRaises Timeout;
     orphaned_api := GetRaises Timeout;
     reorgs_api := GetRaises Timeout;
     price_api := GetRaises Timeout;
     time_time := 1762214400%float |}.

Definition zero_hashrate_tick : tick :=
  {| net := zero_hashrate; open_fails := false; ctrl_c := false |}.

(** The snapshot that [fetch_all] builds from [zero_hashrate] with seed
    1069. *)
Definition zero_hashrate_snapshot : JetskiTrackerData :=
  {| network_hashrate := 0;
     qubic_hashrate := 0;
     orphaned_blocks := 0;
     block_withholding_score := 0.081899999999999987;
     pool_distribution := baseline_distribution;
     last_reorg_depth := 0;
     timestamp := 1762214400;
     xmr_price := 167 |}.

(** Ctrl+C arrives during the sleep of the round. *)
Definition interrupted_tick : tick :=
  {| net := all_down; open_fails := false; ctrl_c := true |}.

Definition single_args : args :=
  {| output := "jetski_data.json";
     watch := false;
     interval := 60;
     haskell := false;
     arg_seed := 1069 |}.

(** Every endpoint answers 200 with a well-formed document. *)
Definition all_up : network :=
  {| hashrate_api := ok_response (PDict [("hashrate_ghs", PFloat 5.2)]);
     hashrate_fallback := GetRaises Timeout;
     pools_api := ok_response two_pools;
     orphaned_api := ok_response (PDict [("orphaned_24h", PInt 18)]);
     reorgs_api := ok_response three_reorgs;
     price_api :=
       ok_response (PDict [("monero", PDict [("usd", PFloat 150)])]);
     time_time := 1762214400%float |}.

(** ** Vocabulary of the proofs about binary64 arithmetic *)

(** A [spec_float] that is not a NaN and has the given sign. *)
Definition has_sign (s : bool) (x : spec_float) : Prop :=
  match x with
  | S754_zero s' | S754_infinity s' | S754_finite s' _ _ => s' = s
  | S754_nan => False
  end.

(** Not a NaN and not below zero: a zero of either sign, a positive number
    or plus infinity. *)
Definition nonneg (x : spec_float) : bool :=
  match x with
  | S754_zero _ => true
  | S754_infinity s | S754_finite s _ _ => negb s
  | S754_nan => false
  end.

(** A finite number that is not below zero. *)
Definition finite_nonneg (x : spec_float) : bool :=
  match x with
  | S754_zero _ => true
  | S754_finite s _ _ => negb s
  | _ => false
  end.

Definition fnonneg (x : float) : bool := nonneg (Prim2SF x).

(** A finite float above zero. *)
Definition fpositive (x : float) : Prop :=
  exists m e, Prim2SF x = S754_finite false m e.

(** [m1 * 2 ^ e1 <= m2 * 2 ^ e2] and [m1 * 2 ^ e1 < m2 * 2 ^ e2], stated on
    integers. *)
Definition vle (m1 e1 m2 e2 : Z) : Prop :=
  m1 * 2 ^ (e1 - Z.min e1 e2) <= m2 * 2 ^ (e2 - Z.min e1 e2).

Definition vlt (m1 e1 m2 e2 : Z) : Prop :=
  m1 * 2 ^ (e1 - Z.min e1 e2) < m2 * 2 ^ (e2 - Z.min e1 e2).

(** The largest finite binary64 number is [(2 ^ 53 - 1) * 2 ^ 971]; 20.0 is
    [twenty_mantissa * 2 ^ -48]. *)
Definition max_mantissa : positive := 9007199254740991.

Definition twenty_mantissa : positive := 5629499534213120.

(** The residues modulo 100. *)
Definition residues : list Z := map Z.of_nat (seq 0 100).

(** A zero of either sign. *)
Definition is_zero (x : spec_float) : bool :=
  match x with S754_zero _ => true | _ => false end.

(** A zero or a finite number of either sign. *)
Definition finite_sf (x : spec_float) : bool :=
  match x with
  | S754_zero _ | S754_finite _ _ _ => true
  | _ => false
  end.

(** * Binary64 arithmetic

    The facts about [SpecFloat]'s rounding that the claims need: signs,
    numbers of digits, shifts, and the order of a sum and an operand. *)

(** ** Signs of results *)
Section Sign.
Variables prec emax : Z.

Lemma shr_1_nonneg mrs : 0 <= shr_m mrs -> 0 <= shr_m (shr_1 mrs).
Proof.
  destruct mrs as [m r s]; simpl.
  destruct m as [|p|p]; simpl; try lia.
  - destruct p; simpl; lia.
Qed.

Lemma iter_pos_shr_1_nonneg p :
  forall mrs, 0 <= shr_m mrs -> 0 <= shr_m (iter_pos shr_1 p mrs).
Proof.
  induction p as [p IH|p IH|]; intros mrs H; simpl.
  - apply IH, IH, shr_1_nonneg, H.
  - apply IH, IH, H.
  - apply shr_1_nonneg, H.
Qed.

Lemma shr_nonneg mrs e n :
  0 <= shr_m mrs -> 0 <= shr_m (fst (shr mrs e n)).
Proof.
  intros H. destruct n; simpl; auto using iter_pos_shr_1_nonneg.
Qed.

Lemma shr_record_of_loc_m m l : shr_m (shr_record_of_loc m l) = m.
Proof. destruct l as [|[]]; reflexivity. Qed.

Lemma shr_fexp_nonneg m e l :
  0 <= m -> 0 <= shr_m (fst (shr_fexp prec emax m e l)).
Proof.
  intros H. unfold shr_fexp. apply shr_nonneg.
  rewrite shr_record_of_loc_m. exact H.
Qed.

Lemma round_nearest_even_nonneg m l :
  0 <= m -> 0 <= round_nearest_even m l.
Proof.
  intros H. destruct l as [|[]]; simpl; try lia.
  destruct (Z.even m); lia.
Qed.

Lemma binary_round_aux_sign s m e l :
  0 <= m -> has_sign s (binary_round_aux prec emax s m e l).
Proof.
  intros H. unfold binary_round_aux.
  pose proof (shr_fexp_nonneg m e l H) as H1.
  destruct (shr_fexp prec emax m e l) as [mrs' e'].
  simpl in H1.
  pose proof (shr_fexp_nonneg _ e' loc_Exact
                (round_nearest_even_nonneg _ (loc_of_shr_record mrs') H1)) as H2.
  destruct (shr_fexp prec emax _ e' loc_Exact) as [mrs'' e''].
  simpl in H2.
  destruct (shr_m mrs'') as [|p|p]; simpl; try reflexivity.
  - destruct (e'' <=? emax - prec); reflexivity.
  - lia.
Qed.

Lemma binary_round_sign s m e : has_sign s (binary_round prec emax s m e).
Proof.
  unfold binary_round.
  destruct (shl_align m e _) as [mz ez].
  apply binary_round_aux_sign. lia.
Qed.

Lemma binary_normalize_nonneg n e :
  0 <= n -> has_sign false (binary_normalize prec emax n e false).
Proof.
  intros H. destruct n as [|p|p]; simpl.
  - reflexivity.
  - apply binary_round_sign.
  - lia.
Qed.

Lemma has_sign_nonneg x : has_sign false x -> nonneg x = true.
Proof. destruct x; simpl; intros; subst; auto; contradiction. Qed.

Lemma SFmul_nonneg x y :
  nonneg x = true -> forall m e, y = S754_finite false m e ->
  nonneg (SFmul prec emax x y) = true.
Proof.
  intros Hx m e ->.
  destruct x as [s|s| |s mx ex]; simpl in *; try discriminate.
  - reflexivity.
  - rewrite xorb_false_r. exact Hx.
  - apply has_sign_nonneg.
    apply negb_true_iff in Hx; subst s. simpl.
    apply binary_round_aux_sign. lia.
Qed.

Lemma SFadd_nonneg x y :
  nonneg x = true -> nonneg y = true -> nonneg (SFadd prec emax x y) = true.
Proof.
  intros Hx Hy.
  destruct x as [sx|sx| |sx mx ex], y as [sy|sy| |sy my ey];
    simpl in *; try discriminate; auto.
  - destruct sx, sy; reflexivity.
  - destruct sx, sy; simpl in *; try discriminate; reflexivity.
  - apply negb_true_iff in Hx, Hy; subst sx sy. simpl.
    apply has_sign_nonneg.
    apply binary_round_sign.
Qed.

Lemma SFdiv_core_binary_nonneg m1 e1 m2 e2 :
  0 <= m1 -> 0 < m2 ->
  0 <= fst (fst (SFdiv_core_binary prec emax m1 e1 m2 e2)).
Proof.
  intros H1 H2. unfold SFdiv_core_binary.
  set (s := _ - _ - _).
  set (m' := match s with Z0 => m1 | Zpos _ => Z.shiftl m1 s | Zneg _ => 0 end).
  assert (Hm' : 0 <= m').
  { subst m'. destruct s; try lia. apply Z.shiftl_nonneg. exact H1. }
  pose proof (Z_div_mod m' m2 ltac:(lia)) as Hd.
  destruct (Z.div_eucl m' m2) as [q r]. simpl.
  destruct Hd as [Hq Hr]. nia.
Qed.

Lemma SFdiv_nonneg x y :
  nonneg x = true -> forall m e, y = S754_finite false m e ->
  nonneg (SFdiv prec emax x y) = true.
Proof.
  intros Hx m e ->.
  destruct x as [s|s| |s mx ex]; simpl in *; try discriminate.
  - reflexivity.
  - rewrite xorb_false_r. exact Hx.
  - apply negb_true_iff in Hx; subst s.
    pose proof (SFdiv_core_binary_nonneg (Zpos mx) ex (Zpos m) e
                  ltac:(lia) ltac:(lia)) as H.
    destruct (SFdiv_core_binary prec emax _ _ _ _) as [[mz ez] lz].
    simpl in H. apply has_sign_nonneg.
    apply binary_round_aux_sign. exact H.
Qed.

End Sign.

(** ** From [SpecFloat] to the primitive floats *)

Lemma SFldexp_sign s x e :
  has_sign s x -> has_sign s (SFldexp prec emax x e).
Proof.
  destruct x; simpl; auto. intros ->. apply binary_round_sign.
Qed.

Lemma SF2Prim_nonneg s :
  has_sign false s -> has_sign false (Prim2SF (SF2Prim s)).
Proof.
  destruct s as [s|s| |s m e]; simpl; intros H; subst; try reflexivity.
  - contradiction.
  - rewrite Z_ldexp_spec. apply SFldexp_sign.
    rewrite of_uint63_spec. apply binary_normalize_nonneg.
    apply Uint63.to_Z_bounded.
Qed.

Lemma float_of_int_Returns n x :
  float_of_int n = Returns x ->
  x = SF2Prim (binary_normalize prec emax n 0 false).
Proof.
  unfold float_of_int.
  destruct (binary_normalize prec emax n 0 false);
    try discriminate; intros [= <-]; reflexivity.
Qed.

Lemma float_of_int_nonneg n x :
  0 <= n -> float_of_int n = Returns x -> fnonneg x = true.
Proof.
  intros Hn H. apply float_of_int_Returns in H. subst x.
  apply has_sign_nonneg, SF2Prim_nonneg, binary_normalize_nonneg, Hn.
Qed.

(** Checking a property of the residues modulo 100 one by one. *)
Lemma below_100 (P : Z -> bool) :
  forallb P residues = true ->
  forall k, 0 <= k < 100 -> P k = true.
Proof.
  intros H k Hk. rewrite forallb_forall in H. apply H.
  unfold residues. apply in_map_iff. exists (Z.to_nat k). split; [lia|].
  apply in_seq. lia.
Qed.

Lemma mul_nonneg x y :
  fnonneg x = true -> fpositive y -> fnonneg (x * y) = true.
Proof.
  intros Hx (m & e & Hy). unfold fnonneg. rewrite mul_spec.
  eapply SFmul_nonneg; eauto.
Qed.

Lemma div_nonneg x y :
  fnonneg x = true -> fpositive y -> fnonneg (x / y) = true.
Proof.
  intros Hx (m & e & Hy). unfold fnonneg. rewrite div_spec.
  eapply SFdiv_nonneg; eauto.
Qed.

Lemma add_nonneg x y :
  fnonneg x = true -> fnonneg y = true -> fnonneg (x + y) = true.
Proof.
  intros Hx Hy. unfold fnonneg. rewrite add_spec.
  apply SFadd_nonneg; assumption.
Qed.

Lemma fpositive_0_7 : fpositive 0.7.
Proof. do 2 eexists. vm_compute. reflexivity. Qed.
Lemma fpositive_0_3 : fpositive 0.3.
Proof. do 2 eexists. vm_compute. reflexivity. Qed.
Lemma fpositive_20 : fpositive 20.
Proof. do 2 eexists. vm_compute. reflexivity. Qed.
Lemma ltb_zero_nonneg y : (0 <? y)%float = true -> fnonneg y = true.
Proof.
  rewrite ltb_spec. unfold fnonneg.
  change (Prim2SF 0) with (S754_zero false).
  destruct (Prim2SF y) as [s|s| |s m e]; try destruct s; simpl;
    try discriminate; reflexivity.
Qed.

Lemma leb_zero_nonneg y : fnonneg y = true -> (0 <=? y)%float = true.
Proof.
  rewrite leb_spec. unfold fnonneg.
  change (Prim2SF 0) with (S754_zero false).
  destruct (Prim2SF y) as [s|s| |s m e]; try destruct s; simpl;
    try discriminate; reflexivity.
Qed.

Lemma SFcompare_antisym x y :
  SFcompare y x = option_map CompOpp (SFcompare x y).
Proof.
  destruct x as [sx|sx| |sx mx ex], y as [sy|sy| |sy my ey];
    try reflexivity;
    try (destruct sx; reflexivity); try (destruct sy; reflexivity);
    try (destruct sx, sy; reflexivity).
  unfold SFcompare, option_map. f_equal.
  rewrite (Z.compare_antisym ex ey).
  assert (H : Pos.compare_cont Eq my mx
              = CompOpp (Pos.compare_cont Eq mx my))
    by (symmetry; apply (Pos.compare_cont_antisym mx my Eq)).
  rewrite H.
  destruct sx, sy; try reflexivity;
    destruct (ex ?= ey)%Z; try reflexivity;
    cbn [CompOpp]; destruct (Pos.compare_cont Eq mx my); reflexivity.
Qed.

Lemma SFleb_of_not_ltb x y :
  x <> S754_nan -> y <> S754_nan -> SFltb x y = false -> SFleb y x = true.
Proof.
  intros Hx Hy. unfold SFltb, SFleb. rewrite (SFcompare_antisym x y).
  destruct x, y; try congruence;
    destruct (SFcompare _ _) as [[]|] eqn:E; cbn; try congruence;
    discriminate E.
Qed.

Lemma nonneg_not_nan x : nonneg x = true -> x <> S754_nan.
Proof. destruct x; simpl; congruence. Qed.

Lemma nonneg_not_gt_one y :
  fnonneg y = true -> (1 <? y)%float = false -> (y <=? 1)%float = true.
Proof.
  rewrite ltb_spec, leb_spec. unfold fnonneg. intros Hy H.
  apply SFleb_of_not_ltb;
    [vm_compute; discriminate | apply nonneg_not_nan, Hy | exact H].
Qed.

Lemma min2_one_nonneg x : fnonneg x = true -> fnonneg (min2 x 1) = true.
Proof.
  intros H. unfold min2. destruct (1 <? x)%float; auto.
Qed.

Lemma max2_zero_nonneg y : fnonneg (max2 0 y) = true.
Proof.
  unfold max2. destruct (0 <? y)%float eqn:E.
  - apply ltb_zero_nonneg, E.
  - reflexivity.
Qed.

Lemma min2_one_unit x :
  fnonneg x = true ->
  (0 <=? min2 x 1)%float = true /\ (min2 x 1 <=? 1)%float = true.
Proof.
  intros H. unfold min2. destruct (1 <? x)%float eqn:E.
  - split; reflexivity.
  - split; [apply leb_zero_nonneg, H | apply nonneg_not_gt_one; assumption].
Qed.

Lemma max_of_returns l : l <> [] -> exists m, max_of l = Returns m.
Proof. destruct l; [congruence | eexists; reflexivity]. Qed.

(** ** Rounding to nearest and the order *)

Module B64.

Abbreviation fexp := (SpecFloat.fexp prec emax).
Abbreviation digits := Zdigits2.

Lemma fexp_eq e : fexp e = Z.max (e - 53) (-1074).
Proof. reflexivity. Qed.

Lemma fexp_mono a b : a <= b -> fexp a <= fexp b.
Proof. rewrite !fexp_eq. lia. Qed.

Lemma fexp_ge_emin e : -1074 <= fexp e.
Proof. rewrite fexp_eq. lia. Qed.

(** *** Number of binary digits *)

Lemma digits2_pos_bounds p :
  2 ^ (Zpos (digits2_pos p) - 1) <= Zpos p < 2 ^ Zpos (digits2_pos p).
Proof.
  induction p as [p IH|p IH|]; simpl digits2_pos.
  - rewrite Pos2Z.inj_succ.
    replace (Z.succ (Zpos (digits2_pos p)) - 1)
      with (Z.succ (Zpos (digits2_pos p) - 1)) by lia.
    rewrite !Z.pow_succ_r by lia. lia.
  - rewrite Pos2Z.inj_succ.
    replace (Z.succ (Zpos (digits2_pos p)) - 1)
      with (Z.succ (Zpos (digits2_pos p) - 1)) by lia.
    rewrite !Z.pow_succ_r by lia. lia.
  - simpl. lia.
Qed.

Lemma digits_pos m : 0 < m -> 0 < digits m.
Proof. destruct m; simpl; lia. Qed.

Lemma digits_bounds m :
  0 < m -> 2 ^ (digits m - 1) <= m < 2 ^ digits m.
Proof.
  destruct m as [|p|p]; try lia. intros _. apply digits2_pos_bounds.
Qed.

Lemma digits_nonneg m : 0 <= digits m.
Proof. destruct m; simpl; lia. Qed.

(** A number below [2 ^ k] has at most [k] digits. *)
Lemma digits_le_of_lt m k : 0 <= k -> 0 <= m < 2 ^ k -> digits m <= k.
Proof.
  intros Hk [H0 H].
  destruct (Z.eq_dec m 0) as [->|Hm]; [simpl; lia|].
  destruct (Z_le_gt_dec (digits m) k) as [|Hgt]; [assumption|exfalso].
  pose proof (digits_bounds m ltac:(lia)) as [Hl _].
  assert (2 ^ k <= 2 ^ (digits m - 1)) by (apply Z.pow_le_mono_r; lia).
  lia.
Qed.

(** A number from [2 ^ k] on has more than [k] digits. *)
Lemma digits_gt_of_le m k : 0 <= k -> 2 ^ k <= m -> k < digits m.
Proof.
  intros Hk H.
  assert (0 < m) by (pose proof (Z.pow_pos_nonneg 2 k); lia).
  destruct (Z_lt_le_dec k (digits m)) as [|Hle]; [assumption|exfalso].
  pose proof (digits_bounds m ltac:(lia)) as [_ Hu].
  assert (2 ^ digits m <= 2 ^ k).
  { apply Z.pow_le_mono_r; try lia. }
  lia.
Qed.

Lemma digits_mono a b : 0 <= a <= b -> digits a <= digits b.
Proof.
  intros [Ha Hab].
  destruct (Z.eq_dec a 0) as [->|Hne]; [apply digits_nonneg|].
  pose proof (digits_bounds a ltac:(lia)) as [Hl _].
  pose proof (digits_pos a ltac:(lia)).
  enough (digits a - 1 < digits b) by lia.
  apply digits_gt_of_le; lia.
Qed.

Lemma digits_shiftl m k :
  0 < m -> 0 <= k -> digits (m * 2 ^ k) = digits m + k.
Proof.
  intros Hm Hk.
  pose proof (digits_bounds m Hm) as [Hl Hu].
  pose proof (digits_pos m Hm) as Hd.
  pose proof (Z.pow_pos_nonneg 2 k ltac:(lia) Hk) as Hp.
  apply Z.le_antisymm.
  - apply digits_le_of_lt; try lia.
    rewrite Z.pow_add_r by lia. nia.
  - enough (digits m + k - 1 < digits (m * 2 ^ k)) by lia.
    apply digits_gt_of_le; try lia.
    replace (digits m + k - 1) with (digits m - 1 + k) by lia.
    rewrite Z.pow_add_r by lia. nia.
Qed.

(** *** Shifts *)

Lemma shr_1_m mrs : 0 <= shr_m mrs -> shr_m (shr_1 mrs) = shr_m mrs / 2.
Proof.
  destruct mrs as [m r s]; simpl. intros H.
  destruct m as [|p|p]; try lia; [reflexivity|].
  destruct p as [p|p|]; simpl shr_m.
  - rewrite Pos2Z.inj_xI.
    apply Z.div_unique with (r := 1); lia.
  - rewrite Pos2Z.inj_xO.
    apply Z.div_unique with (r := 0); lia.
  - reflexivity.
Qed.

Lemma iter_pos_shr_1_m p :
  forall mrs, 0 <= shr_m mrs ->
  shr_m (iter_pos shr_1 p mrs) = shr_m mrs / 2 ^ Zpos p.
Proof.
  induction p as [p IH|p IH|]; intros mrs H; simpl iter_pos.
  - rewrite IH by (apply iter_pos_shr_1_nonneg, shr_1_nonneg, H).
    rewrite IH by (apply shr_1_nonneg, H).
    rewrite shr_1_m by exact H.
    rewrite !Z.div_div by lia.
    f_equal. change (Zpos p~1) with (Z.succ (2 * Zpos p)).
    rewrite Z.pow_succ_r, Z.pow_twice_r by lia. reflexivity.
  - rewrite IH by (apply iter_pos_shr_1_nonneg, H).
    rewrite IH by exact H.
    rewrite !Z.div_div by lia.
    f_equal. change (Zpos p~0) with (2 * Zpos p).
    rewrite Z.pow_twice_r. reflexivity.
  - rewrite shr_1_m by exact H. reflexivity.
Qed.

(** [shr] by [n] places: the mantissa is divided by [2 ^ n] and the exponent
    grows by [n], when [n] is positive; nothing changes otherwise. *)
Lemma shr_spec mrs e n :
  0 <= shr_m mrs ->
  shr_m (fst (shr mrs e n)) = shr_m mrs / 2 ^ Z.max 0 n
  /\ snd (shr mrs e n) = e + Z.max 0 n.
Proof.
  intros H. destruct n as [|p|p]; simpl.
  - rewrite Z.div_1_r. split; [reflexivity | lia].
  - split; [apply iter_pos_shr_1_m, H | reflexivity].
  - rewrite Z.div_1_r. split; [reflexivity | lia].
Qed.

Lemma shr_fexp_spec m e l :
  0 <= m ->
  let n := Z.max 0 (fexp (digits m + e) - e) in
  shr_m (fst (shr_fexp prec emax m e l)) = m / 2 ^ n
  /\ snd (shr_fexp prec emax m e l) = e + n.
Proof.
  intros H n. unfold shr_fexp.
  pose proof (shr_spec (shr_record_of_loc m l) e (fexp (digits m + e) - e))
    as Hs.
  rewrite shr_record_of_loc_m in Hs. apply Hs, H.
Qed.

Lemma round_nearest_even_cases m l :
  round_nearest_even m l = m \/ round_nearest_even m l = m + 1.
Proof.
  destruct l as [|[]]; simpl; auto. destruct (Z.even m); auto.
Qed.

Lemma iter_xO m d : Zpos (Pos.iter xO m d) = Zpos m * 2 ^ Zpos d.
Proof.
  induction d as [|d IH] using Pos.peano_ind.
  - simpl. lia.
  - rewrite Pos.iter_succ, Pos2Z.inj_xO, IH, Pos2Z.inj_succ.
    rewrite Z.pow_succ_r by lia. lia.
Qed.

(** [shl_align] lowers the exponent to [e'] when it is above it. *)
Lemma shl_align_spec m e e' :
  let k := Z.max 0 (e - e') in
  Zpos (fst (shl_align m e e')) = Zpos m * 2 ^ k
  /\ snd (shl_align m e e') = e - k.
Proof.
  unfold shl_align. destruct (e' - e) as [|d|d] eqn:E; cbn [fst snd].
  - replace (Z.max 0 (e - e')) with 0 by lia.
    rewrite Z.pow_0_r. lia.
  - replace (Z.max 0 (e - e')) with 0 by lia.
    rewrite Z.pow_0_r. lia.
  - replace (Z.max 0 (e - e')) with (Zpos d) by lia.
    rewrite iter_xO. split; [reflexivity | lia].
Qed.

Lemma SFleb_finite_pos mr er p e2 :
  er < e2 \/ (er = e2 /\ Zpos mr <= Zpos p) ->
  SFleb (S754_finite false mr er) (S754_finite false p e2) = true.
Proof.
  unfold SFleb, SFcompare. intros [H|[-> H]].
  - apply Z.compare_lt_iff in H. rewrite H. reflexivity.
  - rewrite Z.compare_refl.
    change (Pos.compare_cont Eq mr p) with (mr ?= p)%positive.
    destruct (Pos.compare_spec mr p); try reflexivity. lia.
Qed.

Lemma canonical_mantissa_eq m e :
  canonical_mantissa prec emax m e = true ->
  fexp (Zpos (digits2_pos m) + e) = e.
Proof. unfold canonical_mantissa. apply Z.eqb_eq. Qed.

(** The magnitude of a larger number is not smaller. *)
Lemma vle_magnitude mr er m e :
  0 < mr -> 0 < m -> vle mr er m e -> digits mr + er <= digits m + e.
Proof.
  unfold vle. intros Hr Hm H.
  destruct (Z_le_gt_dec e er) as [Hle|Hgt].
  - rewrite Z.min_r in H by lia.
    replace (e - e) with 0 in H by lia. rewrite Z.pow_0_r, Z.mul_1_r in H.
    pose proof (digits_shiftl mr (er - e) Hr ltac:(lia)) as Hd.
    pose proof (Z.pow_pos_nonneg 2 (er - e) ltac:(lia) ltac:(lia)).
    pose proof (digits_mono (mr * 2 ^ (er - e)) m ltac:(nia)). lia.
  - rewrite Z.min_l in H by lia.
    replace (er - er) with 0 in H by lia. rewrite Z.pow_0_r, Z.mul_1_r in H.
    pose proof (digits_shiftl m (e - er) Hm ltac:(lia)) as Hd.
    pose proof (digits_mono mr (m * 2 ^ (e - er)) ltac:(lia)). lia.
Qed.

(** Rounding to nearest is not below a representable number that the
    rounded number is not below. *)
Lemma binary_round_aux_ge m e l mr er :
  0 < m -> e <= fexp (digits m + e) ->
  canonical_mantissa prec emax mr er = true ->
  vle (Zpos mr) er m e ->
  SFleb (S754_finite false mr er) (binary_round_aux prec emax false m e l)
  = true.
Proof.
  intros Hm He Hc Hv.
  apply canonical_mantissa_eq in Hc.
  pose proof (vle_magnitude (Zpos mr) er m e ltac:(lia) Hm Hv) as Hmag.
  change (digits (Zpos mr)) with (Zpos (digits2_pos mr)) in Hmag.
  pose proof (fexp_mono _ _ Hmag) as Hf. rewrite Hc in Hf.
  pose proof (fexp_ge_emin (Zpos (digits2_pos mr) + er)) as Her.
  rewrite Hc in Her.
  set (f := fexp (digits m + e)) in *.
  unfold binary_round_aux.
  pose proof (shr_fexp_spec m e l ltac:(lia)) as [H1m H1e].
  fold f in H1m, H1e.
  replace (Z.max 0 (f - e)) with (f - e) in H1m, H1e by lia.
  destruct (shr_fexp prec emax m e l) as [mrs' e1].
  cbn [fst snd] in H1m, H1e.
  replace (e + (f - e)) with f in H1e by lia. subst e1.
  set (m' := shr_m mrs') in *.
  pose proof (Z.pow_pos_nonneg 2 (f - e) ltac:(lia) ltac:(lia)) as Hp1.
  (* the mantissa after the first shift *)
  assert (Hm' : (f = er /\ Zpos mr <= m') \/ (er < f /\ 2 ^ 52 <= m')).
  { destruct (Z.eq_dec f er) as [Hfe|Hfe].
    - left. split; [exact Hfe|]. rewrite H1m.
      unfold vle in Hv. rewrite Z.min_r in Hv by lia.
      replace (e - e) with 0 in Hv by lia.
      rewrite Z.pow_0_r, Z.mul_1_r in Hv.
      apply Z.div_le_lower_bound; [lia|]. rewrite Hfe. lia.
    - right. split; [lia|].
      assert (Hfd : f = digits m + e - 53)
        by (unfold f in *; rewrite fexp_eq in *; lia).
      pose proof (digits_bounds m Hm) as [Hl _].
      rewrite H1m. apply Z.div_le_lower_bound; [lia|].
      rewrite <- Z.pow_add_r by lia.
      replace (f - e + 52) with (digits m - 1) by lia. exact Hl. }
  assert (H0 : 0 < m').
  { pose proof (Z.pow_pos_nonneg 2 52 ltac:(lia) ltac:(lia)). lia. }
  set (m1 := round_nearest_even m' (loc_of_shr_record mrs')).
  assert (Hm1 : m' <= m1)
    by (unfold m1; destruct (round_nearest_even_cases m'
                               (loc_of_shr_record mrs')); lia).
  pose proof (shr_fexp_spec m1 f loc_Exact ltac:(lia)) as [H2m H2e].
  destruct (shr_fexp prec emax m1 f loc_Exact) as [mrs'' e2].
  cbn [fst snd] in H2m, H2e.
  set (n2 := Z.max 0 (fexp (digits m1 + f) - f)) in *.
  pose proof (fexp_ge_emin (digits m + e)) as Hfmin. fold f in Hfmin.
  (* the mantissa after the second shift *)
  assert (Hm2 : 0 < shr_m mrs''
                /\ (er < e2 \/ (er = e2 /\ Zpos mr <= shr_m mrs''))).
  { destruct (Z_le_gt_dec (fexp (digits m1 + f) - f) 0) as [Hn|Hn].
    - replace n2 with 0 in * by (unfold n2; lia).
      rewrite Z.pow_0_r, Z.div_1_r in H2m. rewrite H2m.
      split; [lia|]. destruct Hm' as [[? ?]|[? ?]]; [right|left]; lia.
    - assert (Hn2 : n2 = digits m1 - 53)
        by (unfold n2; rewrite fexp_eq in *; lia).
      assert (0 < n2) by (unfold n2; lia).
      pose proof (digits_bounds m1 ltac:(lia)) as [Hl _].
      pose proof (Z.pow_pos_nonneg 2 n2 ltac:(lia) ltac:(lia)).
      assert (2 ^ 52 <= shr_m mrs'').
      { rewrite H2m. apply Z.div_le_lower_bound; [lia|].
        rewrite <- Z.pow_add_r by lia.
        replace (n2 + 52) with (digits m1 - 1) by lia. exact Hl. }
      pose proof (Z.pow_pos_nonneg 2 52 ltac:(lia) ltac:(lia)).
      split; [lia|]. left. lia. }
  destruct Hm2 as [Hpos Hord].
  destruct (shr_m mrs'') as [|p|p]; try lia.
  destruct (e2 <=? emax - prec).
  - apply SFleb_finite_pos. exact Hord.
  - reflexivity.
Qed.

Lemma vle_intro m1 e1 m2 e2 k :
  k <= e1 -> k <= e2 ->
  m1 * 2 ^ (e1 - k) <= m2 * 2 ^ (e2 - k) -> vle m1 e1 m2 e2.
Proof.
  intros H1 H2 H. unfold vle.
  set (c := Z.min e1 e2).
  assert (Hc : k <= c) by (unfold c; lia).
  assert (Hc1 : c <= e1) by (unfold c; lia).
  assert (Hc2 : c <= e2) by (unfold c; lia).
  replace (e1 - k) with (e1 - c + (c - k)) in H by lia.
  replace (e2 - k) with (e2 - c + (c - k)) in H by lia.
  rewrite !Z.pow_add_r, !Z.mul_assoc in H by lia.
  pose proof (Z.pow_pos_nonneg 2 (c - k) ltac:(lia) ltac:(lia)) as Hp.
  apply Z.mul_le_mono_pos_r in H; assumption.
Qed.

Lemma vle_elim m1 e1 m2 e2 k :
  k <= e1 -> k <= e2 -> vle m1 e1 m2 e2 ->
  m1 * 2 ^ (e1 - k) <= m2 * 2 ^ (e2 - k).
Proof.
  intros H1 H2. unfold vle.
  set (c := Z.min e1 e2).
  assert (Hc : k <= c) by (unfold c; lia).
  assert (Hc1 : c <= e1) by (unfold c; lia).
  assert (Hc2 : c <= e2) by (unfold c; lia).
  intros H.
  replace (e1 - k) with (e1 - c + (c - k)) by lia.
  replace (e2 - k) with (e2 - c + (c - k)) by lia.
  rewrite !Z.pow_add_r, !Z.mul_assoc by lia.
  pose proof (Z.pow_pos_nonneg 2 (c - k) ltac:(lia) ltac:(lia)) as Hp.
  apply Z.mul_le_mono_pos_r; assumption.
Qed.

(** Lowering the exponent by [k] and scaling the mantissa by [2 ^ k]
    leaves the number as it is. *)
Lemma vle_shl mr er m e k :
  0 <= k -> vle mr er m e -> vle mr er (m * 2 ^ k) (e - k).
Proof.
  intros Hk H.
  apply (vle_intro _ _ _ _ (Z.min er (e - k))); try lia.
  pose proof (vle_elim mr er m e (Z.min er (e - k)) ltac:(lia) ltac:(lia) H)
    as H'.
  replace (e - Z.min er (e - k)) with (k + (e - k - Z.min er (e - k)))
    in H' by lia.
  rewrite Z.pow_add_r, Z.mul_assoc in H' by lia. exact H'.
Qed.

Lemma binary_round_ge p e mr er :
  canonical_mantissa prec emax mr er = true ->
  vle (Zpos mr) er (Zpos p) e ->
  SFleb (S754_finite false mr er) (binary_round prec emax false p e) = true.
Proof.
  intros Hc Hv. unfold binary_round.
  pose proof (shl_align_spec p e (fexp (Zpos (digits2_pos p) + e)))
    as [Hm He].
  destruct (shl_align p e _) as [mz e0]. cbn [fst snd] in Hm, He.
  set (k := Z.max 0 (e - fexp (Zpos (digits2_pos p) + e))) in *.
  assert (Hk : 0 <= k) by (unfold k; lia).
  assert (Hd : digits (Zpos mz) + e0 = Zpos (digits2_pos p) + e).
  { rewrite Hm, digits_shiftl by lia. simpl digits. lia. }
  apply binary_round_aux_ge; try lia.
  - rewrite Hd. unfold k in He. lia.
  - exact Hc.
  - rewrite Hm, He. apply vle_shl; assumption.
Qed.

Lemma binary_normalize_ge n e mr er :
  canonical_mantissa prec emax mr er = true ->
  vle (Zpos mr) er n e ->
  SFleb (S754_finite false mr er) (binary_normalize prec emax n e false)
  = true.
Proof.
  intros Hc Hv.
  destruct n as [|p|p].
  - exfalso. unfold vle in Hv.
    pose proof (Z.pow_pos_nonneg 2 (er - Z.min er e) ltac:(lia) ltac:(lia)).
    nia.
  - apply binary_round_ge; assumption.
  - exfalso. unfold vle in Hv.
    pose proof (Z.pow_pos_nonneg 2 (er - Z.min er e) ltac:(lia) ltac:(lia)).
    pose proof (Z.pow_pos_nonneg 2 (e - Z.min er e) ltac:(lia) ltac:(lia)).
    nia.
Qed.

Lemma SFleb_refl x : x <> S754_nan -> SFleb x x = true.
Proof.
  destruct x as [s|s| |s m e]; try congruence; intros _;
    try (destruct s; reflexivity).
  unfold SFleb, SFcompare. rewrite Z.compare_refl.
  change (Pos.compare_cont Eq m m) with (m ?= m)%positive.
  rewrite Pos.compare_refl. destruct s; reflexivity.
Qed.

(** Adding a number that is not below zero does not give less. *)
Lemma SFadd_ge_l x y :
  valid_binary x = true -> nonneg x = true -> nonneg y = true ->
  SFleb x (SF64add x y) = true.
Proof.
  intros Hv Hx Hy.
  destruct x as [sx|sx| |sx mx ex]; try discriminate.
  - destruct y as [sy|sy| |sy my ey]; try discriminate;
      simpl in Hy; try (apply negb_true_iff in Hy; subst sy);
      try (destruct sx, sy; reflexivity); destruct sx; reflexivity.
  - simpl in Hx. apply negb_true_iff in Hx; subst sx.
    destruct y as [sy|sy| |sy my ey]; try discriminate;
      simpl in Hy; try (apply negb_true_iff in Hy; subst sy);
      reflexivity.
  - simpl in Hx. apply negb_true_iff in Hx; subst sx.
    destruct y as [sy|sy| |sy my ey]; try discriminate.
    + apply SFleb_refl. discriminate.
    + simpl in Hy. apply negb_true_iff in Hy; subst sy. reflexivity.
    + simpl in Hy. apply negb_true_iff in Hy; subst sy.
      unfold SF64add, SFadd. cbn [cond_Zopp].
      simpl in Hv. apply andb_prop in Hv. destruct Hv as [Hc _].
      pose proof (shl_align_spec mx ex (Z.min ex ey)) as [Hxm _].
      pose proof (shl_align_spec my ey (Z.min ex ey)) as [Hym _].
      apply binary_normalize_ge; [exact Hc|].
      apply (vle_intro _ _ _ _ (Z.min ex ey)); try lia.
      replace (Z.min ex ey - Z.min ex ey) with 0 by lia.
      rewrite Z.pow_0_r, Z.mul_1_r, Hxm.
      replace (Z.max 0 (ex - Z.min ex ey)) with (ex - Z.min ex ey) by lia.
      lia.
Qed.

Lemma vlt_intro m1 e1 m2 e2 k :
  k <= e1 -> k <= e2 ->
  m1 * 2 ^ (e1 - k) < m2 * 2 ^ (e2 - k) -> vlt m1 e1 m2 e2.
Proof.
  intros H1 H2 H. unfold vlt.
  set (c := Z.min e1 e2).
  assert (Hc : k <= c) by (unfold c; lia).
  assert (Hc1 : c <= e1) by (unfold c; lia).
  assert (Hc2 : c <= e2) by (unfold c; lia).
  replace (e1 - k) with (e1 - c + (c - k)) in H by lia.
  replace (e2 - k) with (e2 - c + (c - k)) in H by lia.
  rewrite !Z.pow_add_r, !Z.mul_assoc in H by lia.
  pose proof (Z.pow_pos_nonneg 2 (c - k) ltac:(lia) ltac:(lia)) as Hp.
  apply Z.mul_lt_mono_pos_r in H; assumption.
Qed.

Lemma vlt_elim m1 e1 m2 e2 k :
  k <= e1 -> k <= e2 -> vlt m1 e1 m2 e2 ->
  m1 * 2 ^ (e1 - k) < m2 * 2 ^ (e2 - k).
Proof.
  intros H1 H2. unfold vlt.
  set (c := Z.min e1 e2).
  assert (Hc : k <= c) by (unfold c; lia).
  assert (Hc1 : c <= e1) by (unfold c; lia).
  assert (Hc2 : c <= e2) by (unfold c; lia).
  intros H.
  replace (e1 - k) with (e1 - c + (c - k)) by lia.
  replace (e2 - k) with (e2 - c + (c - k)) by lia.
  rewrite !Z.pow_add_r, !Z.mul_assoc by lia.
  pose proof (Z.pow_pos_nonneg 2 (c - k) ltac:(lia) ltac:(lia)) as Hp.
  apply Z.mul_lt_mono_pos_r; assumption.
Qed.

Lemma vlt_shl m e mr er k :
  0 <= k -> vlt m e mr er -> vlt (m * 2 ^ k) (e - k) mr er.
Proof.
  intros Hk H.
  apply (vlt_intro _ _ _ _ (Z.min er (e - k))); try lia.
  pose proof (vlt_elim m e mr er (Z.min er (e - k)) ltac:(lia) ltac:(lia) H)
    as H'.
  replace (e - Z.min er (e - k)) with (k + (e - k - Z.min er (e - k)))
    in H' by lia.
  rewrite Z.pow_add_r, Z.mul_assoc in H' by lia. exact H'.
Qed.

Lemma vlt_magnitude m e mr er :
  0 < m -> 0 < mr -> vlt m e mr er -> digits m + e <= digits mr + er.
Proof.
  unfold vlt. intros Hm Hr H.
  destruct (Z_le_gt_dec e er) as [Hle|Hgt].
  - rewrite Z.min_l in H by lia.
    replace (e - e) with 0 in H by lia. rewrite Z.pow_0_r, Z.mul_1_r in H.
    pose proof (digits_shiftl mr (er - e) Hr ltac:(lia)) as Hd.
    pose proof (digits_mono m (mr * 2 ^ (er - e)) ltac:(lia)). lia.
  - rewrite Z.min_r in H by lia.
    replace (er - er) with 0 in H by lia. rewrite Z.pow_0_r, Z.mul_1_r in H.
    pose proof (digits_shiftl m (e - er) Hm ltac:(lia)) as Hd.
    pose proof (Z.pow_pos_nonneg 2 (e - er) ltac:(lia) ltac:(lia)).
    pose proof (digits_mono (m * 2 ^ (e - er)) mr ltac:(nia)). lia.
Qed.

Lemma SFleb_finite_neg mr er p e2 :
  e2 < er \/ (er = e2 /\ Zpos p <= Zpos mr) ->
  SFleb (S754_finite true mr er) (S754_finite true p e2) = true.
Proof.
  unfold SFleb, SFcompare. intros [H|[-> H]].
  - apply Z.compare_gt_iff in H. rewrite H. reflexivity.
  - rewrite Z.compare_refl.
    change (Pos.compare_cont Eq mr p) with (mr ?= p)%positive.
    destruct (Pos.compare_spec mr p); try reflexivity. lia.
Qed.

(** Rounding a negative number to nearest is not below a representable
    number that the rounded number is above. *)
Lemma binary_round_aux_le m e l mr er :
  0 < m -> e <= fexp (digits m + e) ->
  bounded prec emax mr er = true ->
  vlt m e (Zpos mr) er ->
  SFleb (S754_finite true mr er) (binary_round_aux prec emax true m e l)
  = true.
Proof.
  intros Hm He Hb Hv.
  apply andb_prop in Hb. destruct Hb as [Hc Hb].
  apply Z.leb_le in Hb. change (emax - prec) with 971 in Hb.
  apply canonical_mantissa_eq in Hc.
  pose proof (vlt_magnitude m e (Zpos mr) er Hm ltac:(lia) Hv) as Hmag.
  change (digits (Zpos mr)) with (Zpos (digits2_pos mr)) in Hmag.
  set (dr := Zpos (digits2_pos mr)) in *.
  pose proof (fexp_mono _ _ Hmag) as Hf. rewrite Hc in Hf.
  pose proof (digits_bounds (Zpos mr) ltac:(lia)) as [Hrl Hru].
  change (digits (Zpos mr)) with dr in Hrl, Hru.
  assert (Hdr : dr <= 53) by (rewrite fexp_eq in Hc; lia).
  set (f := fexp (digits m + e)) in *.
  pose proof (fexp_ge_emin (digits m + e)) as Hfmin. fold f in Hfmin.
  assert (Hfd : digits m + e - 53 <= f)
    by (unfold f; rewrite fexp_eq; lia).
  unfold binary_round_aux.
  pose proof (shr_fexp_spec m e l ltac:(lia)) as [H1m H1e].
  fold f in H1m, H1e.
  replace (Z.max 0 (f - e)) with (f - e) in H1m, H1e by lia.
  destruct (shr_fexp prec emax m e l) as [mrs' e1].
  cbn [fst snd] in H1m, H1e.
  replace (e + (f - e)) with f in H1e by lia. subst e1.
  set (m' := shr_m mrs') in *.
  pose proof (Z.pow_pos_nonneg 2 (f - e) ltac:(lia) ltac:(lia)) as Hp1.
  assert (H0 : 0 <= m') by (rewrite H1m; apply Z.div_pos; lia).
  (* the mantissa after the first shift *)
  assert (Hm' : (f = er /\ m' < Zpos mr) \/ (f < er /\ m' < 2 ^ 53)).
  { destruct (Z.eq_dec f er) as [Hfe|Hfe].
    - left. split; [exact Hfe|]. rewrite H1m.
      pose proof (vlt_elim m e (Zpos mr) er e ltac:(lia) ltac:(lia) Hv) as Hv'.
      replace (e - e) with 0 in Hv' by lia.
      rewrite Z.pow_0_r, Z.mul_1_r in Hv'.
      apply Z.div_lt_upper_bound; [lia|]. rewrite Hfe. lia.
    - right. split; [lia|].
      pose proof (digits_bounds m Hm) as [_ Hu].
      rewrite H1m. apply Z.div_lt_upper_bound; [lia|].
      rewrite <- Z.pow_add_r by lia.
      assert (2 ^ digits m <= 2 ^ (f - e + 53))
        by (apply Z.pow_le_mono_r; lia).
      lia. }
  set (m1 := round_nearest_even m' (loc_of_shr_record mrs')).
  assert (Hm1 : m' <= m1 <= m' + 1)
    by (unfold m1; destruct (round_nearest_even_cases m'
                               (loc_of_shr_record mrs')); lia).
  pose proof (shr_fexp_spec m1 f loc_Exact ltac:(lia)) as [H2m H2e].
  destruct (shr_fexp prec emax m1 f loc_Exact) as [mrs'' e2].
  cbn [fst snd] in H2m, H2e.
  set (n2 := Z.max 0 (fexp (digits m1 + f) - f)) in *.
  (* the mantissa after the second shift *)
  assert (Hm2 : 0 <= shr_m mrs'' /\ e2 <= 971
                /\ (e2 < er \/ (er = e2 /\ shr_m mrs'' <= Zpos mr))).
  { assert (Hd1 : digits m1 <= 54).
    { apply digits_le_of_lt; [lia|].
      assert (2 ^ dr <= 2 ^ 53) by (apply Z.pow_le_mono_r; lia).
      change (2 ^ 54) with (2 * 2 ^ 53).
      destruct Hm' as [[? ?]|[? ?]]; lia. }
    destruct (Z_le_gt_dec (digits m1) 53) as [Hn|Hn].
    - replace n2 with 0 in * by (unfold n2; rewrite fexp_eq; lia).
      rewrite Z.pow_0_r, Z.div_1_r in H2m. rewrite H2m.
      split; [lia|]. split; [lia|].
      destruct Hm' as [[? ?]|[? ?]]; [right|left]; lia.
    - assert (Hn2 : n2 = 1) by (unfold n2; rewrite fexp_eq; lia).
      rewrite Hn2 in *.
      assert (H54 : 2 ^ 53 <= m1).
      { destruct (Z_le_gt_dec (2 ^ 53) m1) as [|Hlt]; [assumption|exfalso].
        pose proof (digits_le_of_lt m1 53 ltac:(lia) ltac:(lia)). lia. }
      destruct Hm' as [[Hfe Hlt]|[Hfe Hlt]].
      { exfalso. assert (2 ^ dr <= 2 ^ 53) by (apply Z.pow_le_mono_r; lia).
        lia. }
      assert (Hm1e : m1 = 2 ^ 53) by lia.
      assert (H2 : shr_m mrs'' = 2 ^ 52).
      { rewrite H2m, Hm1e. reflexivity. }
      rewrite H2. split; [lia|]. split; [lia|].
      destruct (Z.eq_dec (f + 1) er) as [Heq|Hne]; [right|left; lia].
      split; [lia|].
      assert (dr = 53) by (rewrite fexp_eq in Hc; lia).
      replace (dr - 1) with 52 in Hrl by lia. exact Hrl. }
  destruct Hm2 as (Hpos & Hbnd & Hord).
  destruct (shr_m mrs'') as [|p|p]; try lia.
  - reflexivity.
  - apply Z.leb_le in Hbnd. change (emax - prec) with 971.
    rewrite Hbnd. apply SFleb_finite_neg. exact Hord.
Qed.

Lemma binary_round_le p e mr er :
  bounded prec emax mr er = true ->
  vlt (Zpos p) e (Zpos mr) er ->
  SFleb (S754_finite true mr er) (binary_round prec emax true p e) = true.
Proof.
  intros Hc Hv. unfold binary_round.
  pose proof (shl_align_spec p e (fexp (Zpos (digits2_pos p) + e)))
    as [Hm He].
  destruct (shl_align p e _) as [mz e0]. cbn [fst snd] in Hm, He.
  set (k := Z.max 0 (e - fexp (Zpos (digits2_pos p) + e))) in *.
  assert (Hk : 0 <= k) by (unfold k; lia).
  assert (Hd : digits (Zpos mz) + e0 = Zpos (digits2_pos p) + e).
  { rewrite Hm, digits_shiftl by lia. simpl digits. lia. }
  apply binary_round_aux_le; try lia.
  - rewrite Hd. unfold k in He. lia.
  - exact Hc.
  - rewrite Hm, He. apply vlt_shl; assumption.
Qed.

Lemma finite_nonneg_nonneg y : finite_nonneg y = true -> nonneg y = true.
Proof. destruct y; simpl; congruence. Qed.

Lemma SFleb_neg_nonneg m e r :
  has_sign false r -> SFleb (S754_finite true m e) r = true.
Proof.
  destruct r as [s|s| |s mr er]; simpl; intros H; subst;
    try contradiction; reflexivity.
Qed.

(** Adding a finite number that is not below zero does not give less,
    whatever the sign of the first operand. *)
Lemma SFadd_ge x y :
  valid_binary x = true -> x <> S754_nan -> finite_nonneg y = true ->
  SFleb x (SF64add x y) = true.
Proof.
  intros Hv Hx Hy.
  destruct x as [sx|sx| |sx mx ex]; try congruence.
  - destruct y as [sy|sy| |sy my ey]; try discriminate;
      simpl in Hy; try (apply negb_true_iff in Hy; subst sy);
      try (destruct sx, sy; reflexivity); destruct sx; reflexivity.
  - destruct y as [sy|sy| |sy my ey]; try discriminate;
      simpl in Hy; try (apply negb_true_iff in Hy; subst sy);
      destruct sx; reflexivity.
  - destruct sx.
    2:{ apply SFadd_ge_l; auto using finite_nonneg_nonneg. }
    destruct y as [sy|sy| |sy my ey]; try discriminate.
    + apply SFleb_refl. discriminate.
    + simpl in Hy. apply negb_true_iff in Hy; subst sy.
      unfold SF64add, SFadd. cbn [cond_Zopp].
      pose proof (shl_align_spec mx ex (Z.min ex ey)) as [Hxm _].
      pose proof (shl_align_spec my ey (Z.min ex ey)) as [Hym _].
      replace (Z.max 0 (ex - Z.min ex ey)) with (ex - Z.min ex ey)
        in Hxm by lia.
      set (X := fst (shl_align mx ex (Z.min ex ey))) in *.
      set (Y := fst (shl_align my ey (Z.min ex ey))) in *.
      destruct (- Zpos X + Zpos Y) as [|p|p] eqn:EM.
      * reflexivity.
      * apply SFleb_neg_nonneg. cbn [binary_normalize].
        apply binary_round_sign.
      * cbn [binary_normalize]. apply binary_round_le; [exact Hv|].
        apply (vlt_intro _ _ _ _ (Z.min ex ey)); try lia.
        replace (Z.min ex ey - Z.min ex ey) with 0 by lia.
        rewrite Z.pow_0_r, Z.mul_1_r, <- Hxm. lia.
Qed.

Lemma not_nan_spec x : not_nan x = true -> Prim2SF x <> S754_nan.
Proof.
  unfold not_nan, is_nan. rewrite negb_involutive, eqb_spec.
  intros H E. rewrite E in H. discriminate.
Qed.

Lemma add_ge x y :
  not_nan x = true -> finite_nonneg (Prim2SF y) = true ->
  (x <=? x + y)%float = true.
Proof.
  intros Hx Hy. rewrite leb_spec, add_spec.
  apply SFadd_ge; try assumption.
  - apply Prim2SF_valid.
  - apply not_nan_spec, Hx.
Qed.

(** *** Rounding gives a valid float *)

Lemma binary_round_aux_valid s m e l :
  0 <= m -> e <= fexp (digits m + e) ->
  valid_binary (binary_round_aux prec emax s m e l) = true.
Proof.
  intros Hm He.
  set (f := fexp (digits m + e)) in *.
  pose proof (fexp_ge_emin (digits m + e)) as Hfmin. fold f in Hfmin.
  unfold binary_round_aux.
  pose proof (shr_fexp_spec m e l Hm) as [H1m H1e].
  fold f in H1m, H1e.
  replace (Z.max 0 (f - e)) with (f - e) in H1m, H1e by lia.
  destruct (shr_fexp prec emax m e l) as [mrs' e1].
  cbn [fst snd] in H1m, H1e.
  replace (e + (f - e)) with f in H1e by lia. subst e1.
  set (m' := shr_m mrs') in *.
  pose proof (Z.pow_pos_nonneg 2 (f - e) ltac:(lia) ltac:(lia)) as Hp1.
  assert (H0 : 0 <= m') by (rewrite H1m; apply Z.div_pos; lia).
  (* the first shift leaves at most 53 digits, and 53 in the normal range *)
  assert (Hlt : m' < 2 ^ 53).
  { destruct (Z.eq_dec m 0) as [->|Hne].
    - rewrite H1m, Z.div_0_l by lia. lia.
    - pose proof (digits_bounds m ltac:(lia)) as [_ Hu].
      rewrite H1m. apply Z.div_lt_upper_bound; [lia|].
      rewrite <- Z.pow_add_r by lia.
      assert (2 ^ digits m <= 2 ^ (f - e + 53)).
      { apply Z.pow_le_mono_r; [lia|].
        unfold f. rewrite fexp_eq. lia. }
      lia. }
  assert (Hnorm : -1074 < f -> 2 ^ 52 <= m').
  { intros Hf.
    assert (Hfd : f = digits m + e - 53)
      by (unfold f in *; rewrite fexp_eq in *; lia).
    assert (0 < m).
    { destruct (Z.eq_dec m 0) as [->|]; [|lia].
      simpl in Hfd. lia. }
    pose proof (digits_bounds m ltac:(lia)) as [Hl _].
    rewrite H1m. apply Z.div_le_lower_bound; [lia|].
    rewrite <- Z.pow_add_r by lia.
    replace (f - e + 52) with (digits m - 1) by lia. exact Hl. }
  set (m1 := round_nearest_even m' (loc_of_shr_record mrs')).
  assert (Hm1 : m' <= m1 <= m' + 1)
    by (unfold m1; destruct (round_nearest_even_cases m'
                               (loc_of_shr_record mrs')); lia).
  pose proof (shr_fexp_spec m1 f loc_Exact ltac:(lia)) as [H2m H2e].
  destruct (shr_fexp prec emax m1 f loc_Exact) as [mrs'' e2].
  cbn [fst snd] in H2m, H2e.
  set (n2 := Z.max 0 (fexp (digits m1 + f) - f)) in *.
  assert (Hd1 : digits m1 <= 54).
  { apply digits_le_of_lt; [lia|]. change (2 ^ 54) with (2 * 2 ^ 53). lia. }
  assert (Hres : shr_m mrs'' = 0
                 \/ (0 < shr_m mrs''
                     /\ fexp (digits (shr_m mrs'') + e2) = e2)).
  { destruct (Z.eq_dec m1 0) as [Hz|Hnz].
    { left. rewrite H2m, Hz. apply Z.div_0_l.
      pose proof (Z.pow_pos_nonneg 2 n2 ltac:(lia) ltac:(unfold n2; lia)).
      lia. }
    right.
    destruct (Z_le_gt_dec (digits m1) 53) as [Hn|Hn].
    - replace n2 with 0 in * by (unfold n2; rewrite fexp_eq; lia).
      rewrite Z.pow_0_r, Z.div_1_r in H2m. rewrite H2m.
      split; [lia|]. replace e2 with f by lia.
      rewrite fexp_eq.
      destruct (Z.eq_dec f (-1074)) as [Hf|Hf]; [lia|].
      pose proof (Hnorm ltac:(lia)) as H52.
      pose proof (digits_gt_of_le m1 52 ltac:(lia) ltac:(lia)). lia.
    - assert (Hn2 : n2 = 1) by (unfold n2; rewrite fexp_eq; lia).
      rewrite Hn2 in *.
      assert (H54 : 2 ^ 53 <= m1).
      { destruct (Z_le_gt_dec (2 ^ 53) m1) as [|Hlt']; [assumption|exfalso].
        pose proof (digits_le_of_lt m1 53 ltac:(lia) ltac:(lia)). lia. }
      assert (Hm1e : m1 = 2 ^ 53) by lia.
      assert (H2 : shr_m mrs'' = 2 ^ 52).
      { rewrite H2m, Hm1e. reflexivity. }
      rewrite H2. split; [lia|].
      change (digits (2 ^ 52)) with 53. rewrite fexp_eq. lia. }
  destruct Hres as [Hz|[Hpos Hcan]].
  - rewrite Hz. reflexivity.
  - destruct (shr_m mrs'') as [|p|p]; try lia.
    destruct (e2 <=? emax - prec) eqn:Eb; [|reflexivity].
    cbn [valid_binary]. unfold bounded. rewrite Eb, andb_true_r.
    unfold canonical_mantissa. apply Z.eqb_eq. exact Hcan.
Qed.

Lemma binary_round_valid s p e :
  valid_binary (binary_round prec emax s p e) = true.
Proof.
  unfold binary_round.
  pose proof (shl_align_spec p e (fexp (Zpos (digits2_pos p) + e)))
    as [Hm He].
  destruct (shl_align p e _) as [mz e0]. cbn [fst snd] in Hm, He.
  set (k := Z.max 0 (e - fexp (Zpos (digits2_pos p) + e))) in *.
  assert (Hk : 0 <= k) by (unfold k; lia).
  assert (Hd : digits (Zpos mz) + e0 = Zpos (digits2_pos p) + e).
  { rewrite Hm, digits_shiftl by lia. simpl digits. lia. }
  apply binary_round_aux_valid; [lia|].
  rewrite Hd. unfold k in He. lia.
Qed.

Lemma binary_normalize_valid n e sz :
  valid_binary (binary_normalize prec emax n e sz) = true.
Proof.
  destruct n; cbn [binary_normalize];
    [reflexivity | apply binary_round_valid ..].
Qed.

(** The float that [float_of_int] returns is the integer rounded to
    nearest. *)
Lemma float_of_int_spec n x :
  float_of_int n = Returns x ->
  Prim2SF x = binary_normalize prec emax n 0 false.
Proof.
  intros H. apply float_of_int_Returns in H. subst x.
  apply Prim2SF_SF2Prim, binary_normalize_valid.
Qed.

(** *** Which integers convert *)

Lemma binary_round_aux_opp m e l :
  binary_round_aux prec emax true m e l
  = SFopp (binary_round_aux prec emax false m e l).
Proof.
  unfold binary_round_aux.
  destruct (shr_fexp prec emax m e l) as [mrs' e'].
  destruct (shr_fexp prec emax _ e' loc_Exact) as [mrs'' e''].
  destruct (shr_m mrs''); try reflexivity.
  destruct (e'' <=? emax - prec); reflexivity.
Qed.

Lemma binary_round_opp p e :
  binary_round prec emax true p e = SFopp (binary_round prec emax false p e).
Proof.
  unfold binary_round. destruct (shl_align p e _) as [mz ez].
  apply binary_round_aux_opp.
Qed.

(** An integer below the largest finite float rounds to a finite float. *)
Lemma binary_round_finite p :
  Zpos p < Zpos max_mantissa * 2 ^ 971 ->
  forall s, binary_round prec emax false p 0 <> S754_infinity s.
Proof.
  intros Hp s Hinf.
  pose proof (binary_round_sign prec emax false p 0) as Hs.
  rewrite Hinf in Hs. simpl in Hs. subst s.
  assert (Hle : SFleb (S754_finite true max_mantissa 971)
                  (binary_round prec emax true p 0) = true).
  { apply binary_round_le; [vm_compute; reflexivity|].
    unfold vlt. rewrite Z.min_l by lia.
    replace (0 - 0) with 0 by lia. rewrite Z.pow_0_r, Z.mul_1_r.
    replace (971 - 0) with 971 by lia. exact Hp. }
  rewrite binary_round_opp, Hinf in Hle. discriminate Hle.
Qed.

Lemma small_counts_convert n :
  0 <= n < (2 ^ 53 - 1) * 2 ^ 971 -> returns (float_of_int n) = true.
Proof.
  intros [H0 Hn]. unfold float_of_int.
  destruct n as [|p|p]; try lia; [reflexivity|].
  cbn [binary_normalize].
  pose proof (binary_round_finite p Hn) as Hfin.
  destruct (binary_round prec emax false p 0) as [s|s| |s m e];
    try reflexivity.
  exfalso. apply (Hfin s). reflexivity.
Qed.

(** *** A quotient that is at least one *)

Lemma SFleb_finite_pos_inv m1 e1 m2 e2 :
  SFleb (S754_finite false m1 e1) (S754_finite false m2 e2) = true ->
  e1 < e2 \/ (e1 = e2 /\ Zpos m1 <= Zpos m2).
Proof.
  unfold SFleb, SFcompare.
  destruct (Z.compare_spec e1 e2) as [He|He|He]; try discriminate; auto.
  change (Pos.compare_cont Eq m1 m2) with (m1 ?= m2)%positive.
  destruct (Pos.compare_spec m1 m2) as [Hm|Hm|Hm]; try discriminate;
    intros _; right; split; auto; lia.
Qed.

Lemma SFcompare_Eq_finite m1 e1 y :
  SFcompare (S754_finite false m1 e1) y = Some Eq ->
  y = S754_finite false m1 e1.
Proof.
  destruct y as [s|s| |s m2 e2]; try (destruct s; discriminate);
    try discriminate.
  unfold SFcompare. destruct s; [discriminate|].
  destruct (Z.compare_spec e1 e2) as [He|He|He]; try discriminate.
  change (Pos.compare_cont Eq m1 m2) with (m1 ?= m2)%positive.
  destruct (Pos.compare_spec m1 m2) as [Hm|Hm|Hm]; try discriminate.
  intros _. subst. reflexivity.
Qed.

(** The division of two numbers with 53-digit mantissas, the dividend
    having the larger exponent or the same. *)
Lemma SFdiv_core_normal mx ex my ey :
  Zpos (digits2_pos mx) = 53 -> Zpos (digits2_pos my) = 53 -> ey <= ex ->
  exists l,
    SFdiv_core_binary prec emax (Zpos mx) ex (Zpos my) ey
    = (Zpos mx * 2 ^ 53 / Zpos my, ex - ey - 53, l).
Proof.
  intros Hx Hy Hle. unfold SFdiv_core_binary. cbv zeta.
  cbn [Zdigits2]. rewrite Hx, Hy.
  replace (Z.min (fexp (53 + ex - (53 + ey))) (ex - ey))
    with (ex - ey - 53) by (rewrite fexp_eq; lia).
  replace (ex - ey - (ex - ey - 53)) with 53 by lia.
  cbv iota. rewrite Z.shiftl_mul_pow2 by lia.
  destruct (Z.div_eucl (Zpos mx * 2 ^ 53) (Zpos my)) as [q r] eqn:E.
  exists (new_location (Zpos my) r).
  f_equal. f_equal. unfold Z.div. rewrite E. reflexivity.
Qed.

Lemma SFdiv_ge_one mx ex my ey :
  Zpos (digits2_pos mx) = 53 -> Zpos (digits2_pos my) = 53 ->
  ey < ex \/ (ey = ex /\ Zpos my <= Zpos mx) ->
  SFleb (S754_finite false 4503599627370496 (-52))
    (SFdiv prec emax (S754_finite false mx ex) (S754_finite false my ey))
  = true.
Proof.
  intros Hx Hy Hord.
  destruct (SFdiv_core_normal mx ex my ey Hx Hy ltac:(lia)) as [l Hcore].
  unfold SFdiv. rewrite Hcore. cbn [xorb].
  pose proof (digits_bounds (Zpos mx) ltac:(lia)) as [Hxl Hxu].
  pose proof (digits_bounds (Zpos my) ltac:(lia)) as [Hyl Hyu].
  cbn [Zdigits2] in Hxl, Hxu, Hyl, Hyu.
  rewrite Hx in Hxl, Hxu. rewrite Hy in Hyl, Hyu.
  change (53 - 1) with 52 in Hxl, Hyl.
  set (q := Zpos mx * 2 ^ 53 / Zpos my).
  assert (H52 : 0 < 2 ^ 52) by reflexivity.
  assert (H53 : 2 ^ 53 = 2 * 2 ^ 52) by reflexivity.
  assert (Hq : 2 ^ 52 <= q).
  { apply Z.div_le_lower_bound; [lia|]. nia. }
  assert (Hq' : ey = ex -> 2 ^ 53 <= q).
  { intros He. apply Z.div_le_lower_bound; [lia|]. nia. }
  pose proof (digits_gt_of_le q 52 ltac:(lia) Hq) as Hdq.
  apply binary_round_aux_ge.
  - lia.
  - rewrite fexp_eq. lia.
  - vm_compute. reflexivity.
  - change (Zpos 4503599627370496) with (2 ^ 52).
    destruct Hord as [Hlt|[Heq Hm]].
    + apply (vle_intro _ _ _ _ (-52)); [lia | lia |].
      replace (-52 - -52) with 0 by lia. rewrite Z.pow_0_r, Z.mul_1_r.
      pose proof (Z.pow_pos_nonneg 2 (ex - ey - 53 - -52)
                    ltac:(lia) ltac:(lia)).
      nia.
    + apply (vle_intro _ _ _ _ (-53)); [lia | lia |].
      replace (-52 - -53) with 1 by lia.
      replace (ex - ey - 53 - -53) with 0 by lia.
      rewrite Z.pow_0_r, Z.mul_1_r, Z.pow_1_r.
      pose proof (Hq' Heq). lia.
Qed.

End B64.

Import B64.

(** * The tracker: lemmas on the model *)

(** ** The fetchers fall back to their constants *)

Ltac fetch_cases o H :=
  destruct o as [e|[code [body|]]]; cbn in H |- *;
  try destruct (code =? 200); try discriminate H; try reflexivity.

Lemma fetch_network_hashrate_unavailable primary fallback :
  unavailable primary = true ->
  fetch_network_hashrate primary fallback = Returns (PFloat 4.97).
Proof.
  intros H. unfold fetch_network_hashrate.
  assert (Hfb : try_except
                  (response <- session_get fallback ;;
                   if status_code response =? 200
                   then Returns (Return (PFloat 4.97))
                   else Returns Fallthrough)
                  (Returns (PFloat 4.97)) = Returns (PFloat 4.97)).
  { destruct fallback as [e|[code body]]; cbn; try reflexivity.
    destruct (code =? 200); reflexivity. }
  rewrite Hfb.
  destruct primary as [e|[code [body|]]]; cbn in H |- *.
  - rewrite H. reflexivity.
  - destruct (code =? 200); try discriminate H. reflexivity.
  - destruct (code =? 200); reflexivity.
Qed.

Lemma fetch_orphaned_blocks_unavailable o :
  unavailable o = true -> fetch_orphaned_blocks o = Returns (PInt 0).
Proof. intros H. unfold fetch_orphaned_blocks. fetch_cases o H. Qed.

Lemma fetch_pool_distribution_unavailable o :
  unavailable o = true ->
  fetch_pool_distribution o = Returns default_pool_distribution.
Proof. intros H. unfold fetch_pool_distribution. fetch_cases o H. Qed.

Lemma fetch_latest_reorg_unavailable o :
  unavailable o = true -> fetch_latest_reorg o = Returns (PInt 0).
Proof. intros H. unfold fetch_latest_reorg. fetch_cases o H. Qed.

Lemma fetch_xmr_price_unavailable o :
  unavailable o = true -> fetch_xmr_price o = Returns (PFloat 167).
Proof. intros H. unfold fetch_xmr_price. fetch_cases o H. Qed.

(** ** The seed offset *)

(** A property of the seed offset is checked on the hundred residues. *)
Lemma seed_offset_enum (P : float -> bool) :
  forallb (fun k => match int_truediv k 10000 with
                    | Returns o => P o
                    | _ => false
                    end) residues = true ->
  forall self, exists o, seed_offset self = Returns o /\ P o = true.
Proof.
  intros H self.
  pose proof (Z.mod_pos_bound (seed self) 100 ltac:(lia)) as Hb.
  pose proof (below_100 _ H _ Hb) as Hk. cbv beta in Hk.
  unfold seed_offset.
  destruct (int_truediv (seed self mod 100) 10000) as [o| |];
    try discriminate Hk.
  exists o. split; [reflexivity | exact Hk].
Qed.

Lemma baseline_score self :
  exists offset,
    seed_offset self = Returns offset
    /\ calculate_withholding_score self 0 baseline_distribution
       = Returns (combined 0 (concentration_score 0.35) + offset)%float.
Proof.
  destruct (seed_offset_enum
              (fun o => negb (1 <? combined 0 (concentration_score 0.35) + o)
                          %float)
              ltac:(vm_compute; reflexivity) self) as (o & Ho & HP).
  exists o. split; [exact Ho|].
  unfold calculate_withholding_score.
  replace (orphan_score 0) with (Returns 0%float)
    by (vm_compute; reflexivity).
  replace (max_pool_share baseline_distribution) with (Returns 0.35%float)
    by (vm_compute; reflexivity).
  cbn [Py.bind]. rewrite Ho. cbn [Py.bind].
  unfold min2. apply negb_true_iff in HP. rewrite HP. reflexivity.
Qed.

(** C1 (as the code has it): when the five sources are unavailable,
    [fetch_all] returns the snapshot of the defaults; the orphan component is
    0, the largest share of the default distribution is the 0.35 of "Others",
    the concentration component is 0.24999999999999994, and the score is
    0.074999999999999983 plus the seed offset. *)
Theorem all_sources_fail_snapshot (self : JetskiTrackerClient)
    (env : network) :
  all_sources_fail env = true ->
  exists offset,
    seed_offset self = Returns offset
    /\ fetch_all self env
       = Returns
           {| network_hashrate := 4.97;
              qubic_hashrate := 4.97 * 0.15;
              orphaned_blocks := 0;
              block_withholding_score :=
                combined 0 (concentration_score 0.35) + offset;
              pool_distribution := baseline_distribution;
              last_reorg_depth := 0;
              timestamp := time_time env;
              xmr_price := 167 |}
    /\ orphan_score 0 = Returns 0%float
    /\ max_pool_share baseline_distribution = Returns 0.35%float
    /\ concentration_score 0.35 = 0.24999999999999994%float
    /\ combined 0 (concentration_score 0.35) = 0.074999999999999983%float.
Proof.
  intros H. unfold all_sources_fail in H.
  repeat (apply andb_prop in H; destruct H as [H ?]).
  destruct (baseline_score self) as (offset & Ho & Hs).
  exists offset. split; [exact Ho|].
  split; [|repeat split; vm_compute; reflexivity].
  unfold fetch_all.
  rewrite fetch_network_hashrate_unavailable by assumption.
  rewrite fetch_pool_distribution_unavailable by assumption.
  rewrite fetch_orphaned_blocks_unavailable by assumption.
  rewrite fetch_latest_reorg_unavailable by assumption.
  rewrite fetch_xmr_price_unavailable by assumption.
  cbn [Py.bind as_float as_int].
  replace (typed_pool default_pool_distribution)
    with (Returns baseline_distribution) by (vm_compute; reflexivity).
  cbn [Py.bind]. rewrite Hs. cbn [Py.bind].
  replace (qubic_share baseline_distribution) with 0.15%float
    by (vm_compute; reflexivity).
  reflexivity.
Qed.

Lemma all_sources_fail_snapshot_witness :
  all_sources_fail all_down = true
  /\ exists offset,
       seed_offset (new_client 1069) = Returns offset
       /\ fetch_all (new_client 1069) all_down
          = Returns
              {| network_hashrate := 4.97;
                 qubic_hashrate := 4.97 * 0.15;
                 orphaned_blocks := 0;
                 block_withholding_score :=
                   combined 0 (concentration_score 0.35) + offset;
                 pool_distribution := baseline_distribution;
                 last_reorg_depth := 0;
                 timestamp := time_time all_down;
                 xmr_price := 167 |}
       /\ orphan_score 0 = Returns 0%float
       /\ max_pool_share baseline_distribution = Returns 0.35%float
       /\ concentration_score 0.35 = 0.24999999999999994%float
       /\ combined 0 (concentration_score 0.35)
          = 0.074999999999999983%float.
Proof.
  split.
  - reflexivity.
  - apply (all_sources_fail_snapshot (new_client 1069) all_down).
    reflexivity.
Defined.

(** C1, as the spec states it, fails when every endpoint times out and the
    seed is 1069: the concentration component is not 0 and the score is not
    the seed offset. *)
Lemma all_sources_fail_score_is_not_the_offset :
  all_sources_fail all_down = true
  /\ fetch_all (new_client 1069) all_down = Returns all_down_snapshot
  /\ max_pool_share (pool_distribution all_down_snapshot)
     = Returns 0.35%float
  /\ concentration_score 0.35 <> 0%float
  /\ seed_offset (new_client 1069) = Returns 0.0069%float
  /\ block_withholding_score all_down_snapshot <> 0.0069%float.
Proof.
  repeat split; try (vm_compute; reflexivity).
  - intros H.
    assert (E : (concentration_score 0.35 =? 0)%float = true)
      by (rewrite H; reflexivity).
    vm_compute in E. discriminate E.
  - intros H.
    assert (E : (block_withholding_score all_down_snapshot =? 0.0069)%float
                = true) by (rewrite H; reflexivity).
    vm_compute in E. discriminate E.
Qed.

(** C2 (the code at the failing input): a 200 answer whose pool list is
    empty makes [fetch_pool_distribution] return the empty list, not the
    default distribution, and [fetch_all] then raises [ValueError] from
    [max]; [fetch_latest_reorg] on an empty list of reorgs returns 0, since
    it calls [max] with a default. *)
Theorem empty_pool_list_raises :
  fetch_pool_distribution (ok_response (PDict [("pools", PList [])]))
  = Returns []
  /\ fetch_all (new_client 1069) empty_pools = Raises ValueError
  /\ fetch_latest_reorg (ok_response (PDict [("reorgs", PList [])]))
     = Returns (PInt 0).
Proof. repeat split; vm_compute; reflexivity. Qed.

(** C4 (as the code has it): with 18 orphaned blocks, one pool of share
    0.45 and the seed 1069, the orphan component is 0.9, the concentration
    component is 0.7500000000000001, the combined value is 0.855, the seed
    offset is 0.0069 and the score is 0.8619, which is above 0.85: the threat
    is CRITICAL. *)
Theorem scenario_score_is_critical :
  orphan_score 18 = Returns 0.9%float
  /\ max_pool_share [("pool", 0.45%float)] = Returns 0.45%float
  /\ concentration_score 0.45 = 0.75000000000000011%float
  /\ combined 0.9 (concentration_score 0.45) = 0.855%float
  /\ seed_offset (new_client 1069) = Returns 0.0069%float
  /\ calculate_withholding_score (new_client 1069) 18
       [("pool", 0.45%float)] = Returns 0.8619%float
  /\ (0.85 <? 0.8619)%float = true
  /\ threat_assessment 0.8619 = CRITICAL.
Proof. repeat split; vm_compute; reflexivity. Qed.

(** C4, as the spec states it, fails: the score of the scenario is not in
    the HIGH tier, and the concentration component is not 0.75. *)
Lemma scenario_score_is_not_high :
  exists score,
    calculate_withholding_score (new_client 1069) 18 [("pool", 0.45%float)]
    = Returns score
    /\ threat_assessment score <> HIGH
    /\ concentration_score 0.45 <> 0.75%float.
Proof.
  exists 0.8619%float. repeat split.
  - vm_compute. discriminate.
  - intros H.
    assert (E : (concentration_score 0.45 =? 0.75)%float = true)
      by (rewrite H; reflexivity).
    vm_compute in E. discriminate E.
Qed.

(** C5 (the code at the failing input): on a 200 answer whose body is the
    JSON object without the field, [fetch_pool_distribution] returns the
    empty list, which is not its default distribution, while the fetchers of
    the orphaned blocks, of the reorg depth and of the price return their
    constants. *)
Theorem missing_pools_field_returns_empty :
  fetch_pool_distribution (ok_response (PDict [])) = Returns []
  /\ fetch_pool_distribution (ok_response (PDict []))
     <> Returns default_pool_distribution
  /\ fetch_orphaned_blocks (ok_response (PDict [])) = Returns (PInt 0)
  /\ fetch_latest_reorg (ok_response (PDict [])) = Returns (PInt 0)
  /\ fetch_xmr_price (ok_response (PDict [])) = Returns (PFloat 167).
Proof. repeat split; try (vm_compute; reflexivity). discriminate. Qed.

(** ** The watch loop *)




(** An interval that [time.sleep] cannot convert ends the watch loop as
    well, after the first round was displayed and saved. *)
Lemma overlong_interval_ends_watch :
  main {| output := "jetski_data.json";
          watch := true;
          interval := 10000000000;
          haskell := false;
          arg_seed := 1069 |}
    [quiet_tick; quiet_tick] fresh_world
  = ({| output_file := Some (JsonDump all_down_snapshot);
        console := [ThreatLine LOW] |},
     Crashed OverflowError).
Proof. vm_compute. reflexivity. Qed.

(** C7: the score is a function of the seed, the orphaned-block count and
    the pool distribution alone: two calls that agree on them return the
    same value, whatever the clients' sessions. *)
Theorem withholding_score_deterministic
    (self1 self2 : JetskiTrackerClient) (n1 n2 : Z)
    (pool1 pool2 : list (string * float)) :
  seed self1 = seed self2 -> n1 = n2 -> pool1 = pool2 ->
  calculate_withholding_score self1 n1 pool1
  = calculate_withholding_score self2 n2 pool2.
Proof.
  intros Hs Hn Hp. subst n2 pool2.
  unfold calculate_withholding_score, seed_offset.
  rewrite Hs. reflexivity.
Qed.

Lemma withholding_score_deterministic_witness :
  calculate_withholding_score (new_client 1069) 18 [("pool", 0.45%float)]
  = calculate_withholding_score
      {| seed := 1069; session_headers := [] |} 18 [("pool", 0.45%float)].
Proof.
  apply (withholding_score_deterministic (new_client 1069)
           {| seed := 1069; session_headers := [] |} 18 18
           [("pool", 0.45%float)] [("pool", 0.45%float)]);
    reflexivity.
Defined.

(** ** The score lies in the unit interval *)

Lemma seed_offset_returns self :
  exists o,
    seed_offset self = Returns o
    /\ finite_nonneg (Prim2SF o) = true
    /\ (0 <=? o)%float = true
    /\ (o <=? 0.0099)%float = true.
Proof.
  destruct (seed_offset_enum
              (fun o => finite_nonneg (Prim2SF o)
                        && ((0 <=? o)%float && (o <=? 0.0099)%float))
              ltac:(vm_compute; reflexivity) self) as (o & Ho & HP).
  apply andb_prop in HP. destruct HP as [H1 HP].
  apply andb_prop in HP. destruct HP as [H2 H3].
  exists o. auto.
Qed.

Lemma orphan_score_nonneg n orphan :
  0 <= n -> orphan_score n = Returns orphan -> fnonneg orphan = true.
Proof.
  intros Hn. unfold orphan_score, int_truediv.
  destruct (float_of_int n) as [x| |] eqn:Ex; try discriminate.
  cbn [Py.bind]. intros [= <-].
  apply min2_one_nonneg, div_nonneg; [|apply fpositive_20].
  eapply float_of_int_nonneg; eauto.
Qed.

Lemma combined_nonneg orphan concentration :
  fnonneg orphan = true -> fnonneg concentration = true ->
  fnonneg (combined orphan concentration) = true.
Proof.
  intros Ho Hc. unfold combined. apply add_nonneg.
  - apply mul_nonneg; [exact Ho | apply fpositive_0_7].
  - apply mul_nonneg; [exact Hc | apply fpositive_0_3].
Qed.

Lemma concentration_score_nonneg share :
  fnonneg (concentration_score share) = true.
Proof. apply max2_zero_nonneg. Qed.

Lemma score_unit_interval self n pool :
  0 <= n -> pool <> [] ->
  returns (float_of_int n) = true ->
  exists r, calculate_withholding_score self n pool = Returns r
            /\ in_unit_interval r.
Proof.
  intros Hn Hp Hc.
  unfold calculate_withholding_score.
  destruct (orphan_score n) as [orphan| |] eqn:Eo.
  2,3: unfold orphan_score, int_truediv in Eo;
       destruct (float_of_int n); discriminate.
  cbn [Py.bind].
  destruct (max_of_returns (map snd pool)) as [m Hm].
  { destruct pool; [congruence | discriminate]. }
  unfold max_pool_share. rewrite Hm. cbn [Py.bind].
  destruct (seed_offset_returns self) as (o & Ho & Hfin & _).
  rewrite Ho. cbn [Py.bind]. eexists; split; [reflexivity|].
  apply min2_one_unit.
  apply add_nonneg; [|apply finite_nonneg_nonneg, Hfin].
  apply combined_nonneg.
  - eapply orphan_score_nonneg; eauto.
  - apply concentration_score_nonneg.
Qed.

(** C3 (as the code has it): for a non-empty pool distribution with its
    shares in [[0,1]], an orphaned-block count from 0 on and any seed, the
    score is returned and lies in [[0,1]] whenever the count converts to a
    float, and every count below the largest finite float,
    [(2 ^ 53 - 1) * 2 ^ 971], converts. *)
Theorem withholding_score_in_unit_interval (self : JetskiTrackerClient)
    (n : Z) (pool : list (string * float)) :
  pool <> [] ->
  Forall (fun entry => in_unit_interval (snd entry)) pool ->
  0 <= n ->
  (n < (2 ^ 53 - 1) * 2 ^ 971 -> returns (float_of_int n) = true)
  /\ (returns (float_of_int n) = true ->
      exists score,
        calculate_withholding_score self n pool = Returns score
        /\ in_unit_interval score).
Proof.
  intros Hp _ Hn. split.
  - intros Hb. apply small_counts_convert. split; assumption.
  - intros Hc. apply score_unit_interval; assumption.
Qed.

Lemma withholding_score_in_unit_interval_witness :
  returns (float_of_int 18) = true
  /\ exists score,
       calculate_withholding_score (new_client 1069) 18
         [("pool", 0.45%float)] = Returns score
       /\ in_unit_interval score.
Proof.
  assert (Hp : [("pool", 0.45%float)] <> []) by discriminate.
  assert (Hs : Forall (fun entry => in_unit_interval (snd entry))
                 [("pool", 0.45%float)]).
  { constructor; [|constructor]. split; vm_compute; reflexivity. }
  assert (Hn : 0 <= 18) by lia.
  pose proof (withholding_score_in_unit_interval (new_client 1069) 18
                [("pool", 0.45%float)] Hp Hs Hn) as [Hb Hscore].
  assert (Hc : returns (float_of_int 18) = true)
    by (apply Hb; vm_compute; reflexivity).
  split; [exact Hc | exact (Hscore Hc)].
Defined.

(** C3, as the spec states it, fails at an orphaned-block count of
    [2 ^ 1024]: the division by 20.0 raises [OverflowError]. *)
Lemma huge_orphan_count_overflows :
  [("pool", 0.5%float)] <> []
  /\ Forall (fun entry => in_unit_interval (snd entry))
       [("pool", 0.5%float)]
  /\ 0 <= 2 ^ 1024
  /\ calculate_withholding_score (new_client 1069) (2 ^ 1024)
       [("pool", 0.5%float)] = Raises OverflowError.
Proof.
  split; [discriminate|].
  split; [constructor; [|constructor]; split; vm_compute; reflexivity|].
  split; [apply Z.pow_nonneg; lia|].
  vm_compute. reflexivity.
Qed.

(** ** The seed offset does not lower the score *)

Lemma SFeqb_refl x : x <> S754_nan -> SFeqb x x = true.
Proof.
  destruct x as [s|s| |s m e]; try congruence; intros _;
    try (destruct s; reflexivity).
  unfold SFeqb, SFcompare. rewrite Z.compare_refl.
  change (Pos.compare_cont Eq m m) with (m ?= m)%positive.
  rewrite Pos.compare_refl. destruct s; reflexivity.
Qed.

Lemma fnonneg_not_nan c : fnonneg c = true -> not_nan c = true.
Proof.
  intros H. unfold not_nan, is_nan. rewrite negb_involutive, eqb_spec.
  apply SFeqb_refl, nonneg_not_nan, H.
Qed.

(** C10: for every seed, the seed offset is returned and lies between 0
    and 0.0099; adding it to a float that is not a NaN does not give less,
    and so the sum of the combined value and the offset, which the final
    [min] clamps, is not below the combined value the scorer computes. *)
Theorem seed_offset_bounds (self : JetskiTrackerClient) :
  exists offset,
    seed_offset self = Returns offset
    /\ (0 <=? offset)%float = true
    /\ (offset <=? 0.0099)%float = true
    /\ (forall c, not_nan c = true -> (c <=? c + offset)%float = true)
    /\ (forall n pool orphan share,
          0 <= n ->
          orphan_score n = Returns orphan ->
          max_pool_share pool = Returns share ->
          let c := combined orphan (concentration_score share) in
          (c <=? c + offset)%float = true
          /\ calculate_withholding_score self n pool
             = Returns (min2 (c + offset) 1)).
Proof.
  destruct (seed_offset_returns self) as (o & Ho & Hfin & H0 & H99).
  exists o. repeat (split; [assumption|]).
  split.
  - intros c Hc. apply add_ge; assumption.
  - intros n pool orphan share Hn Horphan Hshare c. split.
    + apply add_ge; [|exact Hfin].
      apply fnonneg_not_nan, combined_nonneg.
      * eapply orphan_score_nonneg; eauto.
      * apply concentration_score_nonneg.
    + unfold calculate_withholding_score.
      rewrite Horphan, Hshare. cbn [Py.bind]. rewrite Ho. reflexivity.
Qed.

Lemma seed_offset_bounds_witness :
  exists offset,
    seed_offset (new_client (-1)) = Returns offset
    /\ (0 <=? offset)%float = true
    /\ (offset <=? 0.0099)%float = true
    /\ (forall c, not_nan c = true -> (c <=? c + offset)%float = true)
    /\ (forall n pool orphan share,
          0 <= n ->
          orphan_score n = Returns orphan ->
          max_pool_share pool = Returns share ->
          let c := combined orphan (concentration_score share) in
          (c <=? c + offset)%float = true
          /\ calculate_withholding_score (new_client (-1)) n pool
             = Returns (min2 (c + offset) 1)).
Proof. exact (seed_offset_bounds (new_client (-1))). Defined.

(** ** The share of the target pool *)

Lemma prefix_append needle hay :
  String.prefix needle hay = true <-> exists post, hay = needle ++ post.
Proof.
  revert hay. induction needle as [|a needle IH]; intros hay.
  - simpl. split; [intros _; exists hay; reflexivity | reflexivity || auto].
    destruct hay; reflexivity.
  - destruct hay as [|b hay]; simpl.
    + split; [discriminate | intros (post & H); discriminate H].
    + destruct (ascii_dec a b) as [->|Hab].
      * rewrite IH. split; intros (post & H); exists post.
        -- rewrite H. reflexivity.
        -- injection H as H. exact H.
      * split; [discriminate|]. intros (post & H).
        injection H as H1 H2. congruence.
Qed.

(** [str_contains] decides the spec's substring relation. *)
Lemma str_contains_spec needle hay :
  str_contains needle hay = true <-> contains_substring needle hay.
Proof.
  unfold contains_substring. split.
  - induction hay as [|c hay IH]; cbn [str_contains]; intros H;
      apply orb_prop in H; destruct H as [H|H].
    + apply prefix_append in H. destruct H as (post & H).
      exists "", post. exact H.
    + discriminate H.
    + apply prefix_append in H. destruct H as (post & H).
      exists "", post. exact H.
    + destruct (IH H) as (pre & post & E).
      exists (String c pre), post. rewrite E. reflexivity.
  - intros (pre & post & H). revert hay H.
    induction pre as [|c pre IH]; intros hay H.
    + assert (Hp : String.prefix needle hay = true)
        by (apply prefix_append; exists post; exact H).
      destruct hay; cbn [str_contains]; rewrite Hp; reflexivity.
    + destruct hay as [|c' hay]; [discriminate H|].
      cbn [append] in H. injection H as _ H.
      cbn [str_contains]. rewrite (IH hay H). apply orb_true_r.
Qed.

Lemma qubic_share_first before name share after :
  str_contains "Qubic" name = true ->
  (forall entry, In entry before -> str_contains "Qubic" (fst entry) = false) ->
  qubic_share (before ++ (name, share) :: after)%list = share.
Proof.
  intros Hn Hb. unfold qubic_share.
  induction before as [|[n0 s0] before IH]; cbn [app find fst].
  - rewrite Hn. reflexivity.
  - pose proof (Hb (n0, s0) (or_introl eq_refl)) as H0.
    cbn [fst] in H0. rewrite H0.
    apply IH. intros entry He. apply Hb. right. exact He.
Qed.

Lemma qubic_share_none pool :
  (forall entry, In entry pool -> str_contains "Qubic" (fst entry) = false) ->
  qubic_share pool = 0%float.
Proof.
  intros H. unfold qubic_share.
  induction pool as [|[n0 s0] pool IH]; cbn [find fst].
  - reflexivity.
  - pose proof (H (n0, s0) (or_introl eq_refl)) as H0.
    cbn [fst] in H0. rewrite H0.
    apply IH. intros entry He. apply H. right. exact He.
Qed.

Lemma bind_Returns {A B} (c : result A) (k : A -> result B) (b : B) :
  Py.bind c k = Returns b -> exists a, c = Returns a /\ k a = Returns b.
Proof. destruct c; cbn; intros H; try discriminate H. eauto. Qed.

(** What [fetch_all] puts in the derived field. *)
Lemma fetch_all_qubic_hashrate self env data :
  fetch_all self env = Returns data ->
  qubic_hashrate data
  = (network_hashrate data * qubic_share (pool_distribution data))%float.
Proof.
  unfold fetch_all. intros H.
  repeat (apply bind_Returns in H; destruct H as (? & _ & H)).
  injection H as <-. reflexivity.
Qed.

(** C8: in every snapshot that [fetch_all] returns, the hashrate of the
    target pool is the network hashrate times the share of the first entry
    of the pool distribution whose name contains "Qubic", and times 0.0 when
    no name contains it. *)
Theorem qubic_hashrate_is_share_of_network (self : JetskiTrackerClient)
    (env : network) (data : JetskiTrackerData) :
  fetch_all self env = Returns data ->
  (forall before name share after,
      pool_distribution data = (before ++ (name, share) :: after)%list ->
      contains_substring "Qubic" name ->
      (forall entry, In entry before ->
                     ~ contains_substring "Qubic" (fst entry)) ->
      qubic_hashrate data = (network_hashrate data * share)%float)
  /\ ((forall entry, In entry (pool_distribution data) ->
                     ~ contains_substring "Qubic" (fst entry)) ->
      qubic_hashrate data = (network_hashrate data * 0)%float).
Proof.
  intros H. rewrite (fetch_all_qubic_hashrate self env data H). split.
  - intros before name share after Hp Hn Hb.
    rewrite Hp, qubic_share_first; [reflexivity | |].
    + apply str_contains_spec, Hn.
    + intros entry He. apply not_true_is_false.
      intros Hc. apply (Hb entry He), str_contains_spec, Hc.
  - intros Hnone. rewrite qubic_share_none; [reflexivity|].
    intros entry He. apply not_true_is_false.
    intros Hc. apply (Hnone entry He), str_contains_spec, Hc.
Qed.

Lemma qubic_hashrate_is_share_of_network_witness :
  fetch_all (new_client 1069) all_down = Returns all_down_snapshot
  /\ qubic_hashrate all_down_snapshot
     = (network_hashrate all_down_snapshot * 0.15)%float.
Proof.
  assert (H : fetch_all (new_client 1069) all_down
              = Returns all_down_snapshot) by (vm_compute; reflexivity).
  split; [exact H|].
  apply (proj1 (qubic_hashrate_is_share_of_network (new_client 1069)
                  all_down all_down_snapshot H)
           [] "Qubic" 0.15%float
           [("MineXMR", 0.20%float); ("SupportXMR", 0.18%float);
            ("Hashvault", 0.12%float); ("Others", 0.35%float)]).
  - reflexivity.
  - exists "", "". reflexivity.
  - intros entry [].
Defined.

(** ** The orphan component is clamped, the concentration component is not *)

Lemma has_sign_not_nan s x : has_sign s x -> x <> S754_nan.
Proof. destruct x; simpl; intros H; try discriminate. contradiction. Qed.

Lemma binary_normalize_sign n e :
  exists s, has_sign s (binary_normalize prec emax n e false).
Proof.
  destruct n as [|p|p]; cbn [binary_normalize].
  - exists false. reflexivity.
  - exists false. apply binary_round_sign.
  - exists true. apply binary_round_sign.
Qed.

Lemma SFopp_sign s x : has_sign s x -> has_sign (negb s) (SFopp x).
Proof. destruct x; simpl; intros H; subst; auto. Qed.

Lemma SF2Prim_sign s x : has_sign s x -> has_sign s (Prim2SF (SF2Prim x)).
Proof.
  destruct s; [|apply SF2Prim_nonneg].
  destruct x as [sx|sx| |sx m e]; simpl; intros H; subst;
    try reflexivity; try contradiction.
  rewrite opp_spec. apply (SFopp_sign false).
  rewrite Z_ldexp_spec. apply SFldexp_sign.
  rewrite of_uint63_spec. apply binary_normalize_nonneg.
  apply Uint63.to_Z_bounded.
Qed.

Lemma SFdiv_sign s x m e :
  has_sign s x ->
  has_sign s (SFdiv prec emax x (S754_finite false m e)).
Proof.
  destruct x as [sx|sx| |sx mx ex]; simpl; intros H; subst;
    try contradiction; try apply xorb_false_r.
  pose proof (SFdiv_core_binary_nonneg prec emax (Zpos mx) ex (Zpos m) e
                ltac:(lia) ltac:(lia)) as Hq.
  destruct (SFdiv_core_binary prec emax _ _ _ _) as [[mz ez] lz].
  simpl in Hq. rewrite xorb_false_r.
  apply binary_round_aux_sign. exact Hq.
Qed.

Lemma int_truediv_not_nan n d x :
  fpositive d -> int_truediv n d = Returns x -> not_nan x = true.
Proof.
  intros (m & e & Hd). unfold int_truediv.
  destruct (float_of_int n) as [y| |] eqn:Ey; try discriminate.
  cbn [Py.bind]. intros [= <-].
  apply float_of_int_Returns in Ey.
  destruct (binary_normalize_sign n 0) as [s Hs].
  apply SF2Prim_sign in Hs. rewrite <- Ey in Hs.
  unfold not_nan, is_nan. rewrite negb_involutive, eqb_spec.
  apply SFeqb_refl. rewrite div_spec, Hd.
  apply (has_sign_not_nan s). apply SFdiv_sign. exact Hs.
Qed.

Lemma orphan_score_le_one n orphan :
  orphan_score n = Returns orphan -> (orphan <=? 1)%float = true.
Proof.
  unfold orphan_score.
  destruct (int_truediv n 20) as [x| |] eqn:Ex; try discriminate.
  cbn [Py.bind]. intros [= <-]. unfold min2.
  destruct (1 <? x)%float eqn:E; [reflexivity|].
  pose proof (int_truediv_not_nan n 20 x fpositive_20 Ex) as Hx.
  rewrite ltb_spec in E. rewrite leb_spec.
  apply SFleb_of_not_ltb; [vm_compute; discriminate| |exact E].
  unfold not_nan, is_nan in Hx. rewrite negb_involutive, eqb_spec in Hx.
  intros Hn. rewrite Hn in Hx. discriminate Hx.
Qed.

Lemma float_of_int_ge_twenty n x :
  20 <= n -> float_of_int n = Returns x ->
  exists mx ex,
    Prim2SF x = S754_finite false mx ex
    /\ Zpos (digits2_pos mx) = 53
    /\ (-48 < ex \/ (-48 = ex /\ Zpos twenty_mantissa <= Zpos mx)).
Proof.
  intros Hn Hx.
  pose proof (float_of_int_spec n x Hx) as Hs.
  assert (Hfin : forall s, Prim2SF x <> S754_infinity s).
  { intros s Hinf. rewrite Hs in Hinf. unfold float_of_int in Hx.
    rewrite Hinf in Hx. discriminate Hx. }
  assert (Hle : SFleb (S754_finite false twenty_mantissa (-48)) (Prim2SF x)
                = true).
  { rewrite Hs. apply binary_normalize_ge; [vm_compute; reflexivity|].
    apply (vle_intro _ _ _ _ (-48)); [lia | lia |].
    replace (-48 - -48) with 0 by lia. rewrite Z.pow_0_r, Z.mul_1_r.
    replace (0 - -48) with 48 by lia.
    change (2 ^ 48) with 281474976710656. unfold twenty_mantissa. lia. }
  pose proof (Prim2SF_valid x) as Hv.
  destruct (Prim2SF x) as [s|s| |s mx ex] eqn:E.
  - destruct s; discriminate Hle.
  - exfalso. apply (Hfin s). reflexivity.
  - discriminate Hle.
  - destruct s; [discriminate Hle|].
    apply SFleb_finite_pos_inv in Hle.
    exists mx, ex. split; [reflexivity|]. split; [|exact Hle].
    cbn [valid_binary] in Hv. apply andb_prop in Hv. destruct Hv as [Hc _].
    apply canonical_mantissa_eq in Hc. rewrite fexp_eq in Hc.
    pose proof (digits_bounds (Zpos mx) ltac:(lia)) as [Hl Hu].
    cbn [Zdigits2] in Hl, Hu.
    lia.
Qed.

Lemma orphan_score_saturates n orphan :
  20 <= n -> orphan_score n = Returns orphan -> orphan = 1%float.
Proof.
  intros Hn. unfold orphan_score, int_truediv.
  destruct (float_of_int n) as [x| |] eqn:Ex; try discriminate.
  cbn [Py.bind]. intros [= <-].
  destruct (float_of_int_ge_twenty n x Hn Ex) as (mx & ex & Hx & Hdx & Hord).
  assert (Hle : SFleb (Prim2SF 1) (Prim2SF (x / 20)) = true).
  { rewrite div_spec, Hx.
    change (Prim2SF 20) with (S754_finite false twenty_mantissa (-48)).
    change (Prim2SF 1) with (S754_finite false 4503599627370496 (-52)).
    apply SFdiv_ge_one; [exact Hdx | reflexivity | exact Hord]. }
  unfold min2. rewrite ltb_spec.
  unfold SFleb in Hle. unfold SFltb.
  destruct (SFcompare (Prim2SF 1) (Prim2SF (x / 20))) as [[]|] eqn:Ec;
    try discriminate Hle; [|reflexivity].
  change (Prim2SF 1) with (S754_finite false 4503599627370496 (-52)) in Ec.
  apply SFcompare_Eq_finite in Ec.
  apply Prim2SF_inj. rewrite Ec. reflexivity.
Qed.

(** C9 (as the code has it): the concentration component is not clamped
    above 1; for a largest share of 1.0 it is 3.4999999999999996, the
    binary64 value of [(1.0 - 0.3) / 0.2], which is above 1; the orphan
    component never exceeds 1.0, and is exactly 1.0 from 20 orphaned blocks
    on. *)
Theorem concentration_score_not_clamped :
  concentration_score 1 = 3.4999999999999996%float
  /\ (1 <? concentration_score 1)%float = true
  /\ (forall pool,
        max_pool_share pool = Returns 1%float ->
        share <- max_pool_share pool ;; Returns (concentration_score share)
        = Returns 3.4999999999999996%float)
  /\ (forall n orphan,
        orphan_score n = Returns orphan -> (orphan <=? 1)%float = true)
  /\ (forall n orphan,
        20 <= n -> orphan_score n = Returns orphan -> orphan = 1%float).
Proof.
  split; [vm_compute; reflexivity|].
  split; [vm_compute; reflexivity|].
  split.
  - intros pool H. rewrite H. vm_compute. reflexivity.
  - split; [apply orphan_score_le_one | apply orphan_score_saturates].
Qed.

Lemma concentration_score_not_clamped_witness :
  max_pool_share [("small", 0.25%float); ("monopoly", 1%float)]
  = Returns 1%float
  /\ share <- max_pool_share [("small", 0.25%float); ("monopoly", 1%float)] ;;
     Returns (concentration_score share)
     = Returns 3.4999999999999996%float
  /\ returns (orphan_score 25) = true
  /\ (forall orphan,
        orphan_score 25 = Returns orphan ->
        (orphan <=? 1)%float = true /\ orphan = 1%float).
Proof.
  assert (H : max_pool_share [("small", 0.25%float); ("monopoly", 1%float)]
              = Returns 1%float) by (vm_compute; reflexivity).
  split; [exact H|].
  split.
  - apply (proj1 (proj2 (proj2 concentration_score_not_clamped))
             [("small", 0.25%float); ("monopoly", 1%float)] H).
  - split; [vm_compute; reflexivity|].
    intros orphan Ho. split.
    + apply (proj1 (proj2 (proj2 (proj2 concentration_score_not_clamped)))
               25 orphan Ho).
    + apply (proj2 (proj2 (proj2 (proj2 concentration_score_not_clamped)))
               25 orphan); [lia | exact Ho].
Defined.

(** C9, as the spec states it, fails: with a largest share of 1.0 the
    concentration component is not 3.5. *)
Lemma concentration_score_is_not_3_5 :
  max_pool_share [("monopoly", 1%float)] = Returns 1%float
  /\ concentration_score 1 <> 3.5%float.
Proof.
  split; [vm_compute; reflexivity|].
  intros H.
  assert (E : (concentration_score 1 =? 3.5)%float = true)
    by (rewrite H; reflexivity).
  vm_compute in E. discriminate E.
Qed.

(** * Further properties of the tracker *)

(** ** The hashrate fetcher *)

Lemma fallback_placeholder fallback :
  try_except
    (response <- session_get fallback ;;
     if status_code response =? 200 then Returns (Return (PFloat 4.97))
     else Returns Fallthrough)
    (Returns (PFloat 4.97)) = Returns (PFloat 4.97).
Proof.
  destruct fallback as [e|[code body]]; cbn; try reflexivity.
  destruct (code =? 200); reflexivity.
Qed.

(** X1: [fetch_network_hashrate] has three outcomes: Ctrl+C during the
    primary request propagates; a 200 answer whose body is a JSON object
    with the field gives the field's value; everything else gives 4.97. *)
Theorem fetch_network_hashrate_outcomes (primary fallback : get_outcome) :
  fetch_network_hashrate primary fallback
  = match primary with
    | GetRaises KeyboardInterrupt => Raises KeyboardInterrupt
    | _ =>
        match body_of primary with
        | Some (PDict d) =>
            match lookup d "hashrate_ghs" with
            | Some v => Returns v
            | None => Returns (PFloat 4.97)
            end
        | _ => Returns (PFloat 4.97)
        end
    end.
Proof.
  unfold fetch_network_hashrate. rewrite fallback_placeholder.
  destruct primary as [e|[code [body|]]]; cbn.
  - destruct e; reflexivity.
  - destruct (code =? 200); [|reflexivity].
    destruct body; cbn; try reflexivity.
    destruct (lookup d "hashrate_ghs"); reflexivity.
  - destruct (code =? 200); reflexivity.
Qed.

Lemma fetch_network_hashrate_raises primary fallback e :
  fetch_network_hashrate primary fallback = Raises e ->
  e = KeyboardInterrupt /\ primary = GetRaises KeyboardInterrupt.
Proof.
  unfold fetch_network_hashrate. rewrite fallback_placeholder.
  destruct primary as [x|[code [body|]]]; cbn.
  - destruct x; cbn; try discriminate. intros [= <-]. auto.
  - destruct (code =? 200); [|discriminate].
    destruct body; cbn; try discriminate.
    destruct (lookup d "hashrate_ghs"); discriminate.
  - destruct (code =? 200); discriminate.
Qed.

(** X2: the answer of the fallback source never changes the result. *)
Theorem fallback_answer_is_ignored (primary fallback fallback' : get_outcome) :
  fetch_network_hashrate primary fallback
  = fetch_network_hashrate primary fallback'.
Proof.
  unfold fetch_network_hashrate. rewrite !fallback_placeholder. reflexivity.
Qed.

(** ** The fetchers with a bare [except] *)

Lemma fetch_orphaned_blocks_never_raises o e :
  fetch_orphaned_blocks o <> Raises e.
Proof.
  unfold fetch_orphaned_blocks.
  destruct o as [x|[code [body|]]]; cbn; try discriminate;
    destruct (code =? 200); cbn; try discriminate.
  destruct (Py.get body "orphaned_24h" (PInt 0)); cbn; discriminate.
Qed.

Lemma fetch_pool_distribution_never_raises o e :
  fetch_pool_distribution o <> Raises e.
Proof.
  unfold fetch_pool_distribution.
  destruct o as [x|[code [body|]]]; cbn; try discriminate;
    destruct (code =? 200); cbn; try discriminate.
  destruct (Py.get body "pools" (PList [])) as [pools| |]; cbn;
    try discriminate.
  destruct (Py.iter pools) as [items| |]; cbn; try discriminate.
  destruct (comprehension _ items); cbn; discriminate.
Qed.

Lemma fetch_xmr_price_never_raises o e : fetch_xmr_price o <> Raises e.
Proof.
  unfold fetch_xmr_price.
  destruct o as [x|[code [body|]]]; cbn; try discriminate;
    destruct (code =? 200); cbn; try discriminate.
  destruct (subscript body "monero") as [m| |]; cbn; try discriminate.
  destruct (subscript m "usd"); cbn; discriminate.
Qed.

Lemma fetch_latest_reorg_never_raises o e : fetch_latest_reorg o <> Raises e.
Proof.
  unfold fetch_latest_reorg.
  destruct o as [x|[code [body|]]]; cbn; try discriminate;
    destruct (code =? 200); cbn; try discriminate.
  destruct (Py.get body "reorgs" (PList [])) as [reorgs| |]; cbn;
    try discriminate.
  destruct (Py.iter reorgs) as [items| |]; cbn; try discriminate.
  destruct (comprehension _ items) as [depths| |]; cbn; try discriminate.
  destruct (comprehension as_int depths); cbn; discriminate.
Qed.

(** X3: no exception leaves the four fetchers that use a bare [except],
    whatever the request does, Ctrl+C included. *)
Theorem bare_except_fetchers_never_raise (o : get_outcome) (e : exn) :
  fetch_orphaned_blocks o <> Raises e
  /\ fetch_pool_distribution o <> Raises e
  /\ fetch_xmr_price o <> Raises e
  /\ fetch_latest_reorg o <> Raises e.
Proof.
  repeat split.
  - apply fetch_orphaned_blocks_never_raises.
  - apply fetch_pool_distribution_never_raises.
  - apply fetch_xmr_price_never_raises.
  - apply fetch_latest_reorg_never_raises.
Qed.

(** X4: [fetch_orphaned_blocks] and [fetch_xmr_price] return the field of
    the 200 body when it is there, unvalidated, and their constant in every
    other case. *)
Theorem field_or_default (o : get_outcome) :
  fetch_orphaned_blocks o
  = Returns match body_of o with
            | Some body =>
                match field body "orphaned_24h" with
                | Some v => v
                | None => PInt 0
                end
            | None => PInt 0
            end
  /\ fetch_xmr_price o
     = Returns match body_of o with
               | Some body =>
                   match field body "monero" with
                   | Some monero =>
                       match field monero "usd" with
                       | Some usd => usd
                       | None => PFloat 167
                       end
                   | None => PFloat 167
                   end
               | None => PFloat 167
               end.
Proof.
  unfold fetch_orphaned_blocks, fetch_xmr_price.
  destruct o as [x|[code [body|]]]; cbn;
    try (split; reflexivity);
    destruct (code =? 200); cbn; try (split; reflexivity).
  split.
  - destruct body; cbn; try reflexivity.
    destruct (lookup d "orphaned_24h"); reflexivity.
  - destruct body; cbn; try reflexivity.
    destruct (lookup d "monero") as [m|]; cbn; [|reflexivity].
    destruct m; cbn; try reflexivity.
    destruct (lookup d0 "usd"); reflexivity.
Qed.

(** ** The pool distribution *)

Lemma comprehension_entries items pairs :
  map pool_entry items = map Some pairs ->
  comprehension
    (fun p =>
       name <- subscript p "name" ;;
       share <- subscript p "share" ;;
       Returns (name, share))
    items = Returns pairs.
Proof.
  revert pairs. induction items as [|p items IH]; intros [|pr pairs] H;
    try discriminate H; [reflexivity|].
  cbn [map] in H. injection H as Hp Hrest.
  cbn [comprehension]. rewrite (IH _ Hrest).
  unfold pool_entry, field in Hp. destruct p; try discriminate Hp.
  cbn [subscript].
  destruct (lookup d "name"); [|discriminate Hp].
  destruct (lookup d "share"); [|discriminate Hp].
  injection Hp as <-. reflexivity.
Qed.

Lemma comprehension_malformed items :
  existsb (fun p => match pool_entry p with Some _ => false | None => true end)
    items = true ->
  exists e,
    comprehension
      (fun p =>
         name <- subscript p "name" ;;
         share <- subscript p "share" ;;
         Returns (name, share))
      items = Raises e.
Proof.
  induction items as [|p items IH]; cbn [existsb]; [discriminate|].
  intros H. cbn [comprehension].
  destruct (pool_entry p) eqn:Ep.
  - cbn [orb] in H. destruct (IH H) as [e He]. rewrite He.
    unfold pool_entry, field in Ep. destruct p; try discriminate Ep.
    cbn [subscript].
    destruct (lookup d "name"); [|discriminate Ep].
    destruct (lookup d "share"); [|discriminate Ep].
    cbn. eauto.
  - unfold pool_entry, field in Ep.
    destruct p; cbn; eauto.
    destruct (lookup d "name"); cbn; eauto.
    destruct (lookup d "share"); cbn; eauto. discriminate Ep.
Qed.

(** X5: when the pools endpoint answers 200 with a list whose entries all
    have a name and a share, the fetcher returns exactly these pairs, in
    the order of the document. *)
Theorem pool_distribution_in_document_order (o : get_outcome) (body : pyval)
    (items : list pyval) (pairs : list (pyval * pyval)) :
  body_of o = Some body ->
  field body "pools" = Some (PList items) ->
  map pool_entry items = map Some pairs ->
  fetch_pool_distribution o = Returns pairs.
Proof.
  intros Hb Hf Hp. unfold fetch_pool_distribution.
  destruct o as [x|[code [b|]]]; cbn in Hb; try discriminate Hb;
    cbn; destruct (code =? 200); try discriminate Hb.
  injection Hb as ->. cbn.
  destruct body; try discriminate Hf. cbn in Hf |- *. rewrite Hf. cbn.
  rewrite (comprehension_entries _ _ Hp). reflexivity.
Qed.

Lemma pool_distribution_in_document_order_witness :
  fetch_pool_distribution (ok_response two_pools)
  = Returns [(PStr "Qubic", PFloat 0.45); (PStr "Others", PFloat 0.55)].
Proof.
  apply (pool_distribution_in_document_order (ok_response two_pools)
           two_pools
           [PDict [("name", PStr "Qubic"); ("share", PFloat 0.45)];
            PDict [("name", PStr "Others"); ("share", PFloat 0.55)]]
           [(PStr "Qubic", PFloat 0.45); (PStr "Others", PFloat 0.55)]);
    reflexivity.
Defined.

(** X6: one entry without a name or a share discards the whole answer: the
    fetcher returns the default distribution, and no entry of the document. *)
Theorem malformed_pool_entry_discards_answer (o : get_outcome) (body : pyval)
    (items : list pyval) :
  body_of o = Some body ->
  field body "pools" = Some (PList items) ->
  existsb (fun p => match pool_entry p with Some _ => false | None => true end)
    items = true ->
  fetch_pool_distribution o = Returns default_pool_distribution.
Proof.
  intros Hb Hf Hp. unfold fetch_pool_distribution.
  destruct o as [x|[code [b|]]]; cbn in Hb; try discriminate Hb;
    cbn; destruct (code =? 200); try discriminate Hb.
  injection Hb as ->. cbn.
  destruct body; try discriminate Hf. cbn in Hf |- *. rewrite Hf. cbn.
  destruct (comprehension_malformed _ Hp) as [e He]. rewrite He. reflexivity.
Qed.

Lemma malformed_pool_entry_discards_answer_witness :
  fetch_pool_distribution (ok_response two_pools_one_malformed)
  = Returns default_pool_distribution.
Proof.
  apply (malformed_pool_entry_discards_answer
           (ok_response two_pools_one_malformed) two_pools_one_malformed
           [PDict [("name", PStr "Qubic"); ("share", PFloat 0.45)];
            PDict [("name", PStr "Others")]]);
    reflexivity.
Defined.

(** ** The latest reorg *)

Lemma max_default_fold l x :
  let m := fold_left (fun a b => if Z.ltb a b then b else a) l x in
  In m (x :: l) /\ Forall (fun d => d <= m) (x :: l).
Proof.
  revert x. induction l as [|y l IH]; intros x; cbn [fold_left].
  - split; [left; reflexivity|]. constructor; [lia|constructor].
  - destruct (IH (if x <? y then y else x)) as [Hin Hall].
    inversion Hall as [|? ? Hhd Htl]; subst.
    split.
    + destruct Hin as [Hin|Hin]; [|right; right; exact Hin].
      destruct (Z.ltb_spec x y); rewrite <- Hin; [right; left|left];
        reflexivity.
    + constructor; [|constructor; [|exact Htl]];
        destruct (Z.ltb_spec x y); lia.
Qed.

Lemma comprehension_depths items depths :
  map reorg_depth items = map Some depths ->
  comprehension (fun r => subscript r "depth") items
  = Returns (map PInt depths).
Proof.
  revert depths. induction items as [|p items IH]; intros [|z depths] H;
    try discriminate H; [reflexivity|].
  cbn [map] in H. injection H as Hp Hrest.
  cbn [comprehension]. rewrite (IH _ Hrest).
  unfold reorg_depth, field in Hp. destruct p; try discriminate Hp.
  cbn [subscript].
  destruct (lookup d "depth") as [v|]; [|discriminate Hp].
  destruct v; try discriminate Hp. injection Hp as <-. reflexivity.
Qed.

Lemma comprehension_as_int depths :
  comprehension as_int (map PInt depths) = Returns depths.
Proof.
  induction depths as [|z depths IH]; [reflexivity|].
  cbn [map comprehension as_int Py.bind]. rewrite IH. reflexivity.
Qed.

(** X7: when the reorgs endpoint answers 200 with a list of entries with
    integer depths, the fetcher returns the largest depth of the list (also
    when all depths are below zero), and 0 for the empty list. *)
Theorem latest_reorg_is_deepest (o : get_outcome) (body : pyval)
    (items : list pyval) (depths : list Z) :
  body_of o = Some body ->
  field body "reorgs" = Some (PList items) ->
  map reorg_depth items = map Some depths ->
  exists m,
    fetch_latest_reorg o = Returns (PInt m)
    /\ Forall (fun d => d <= m) depths
    /\ (depths <> [] -> In m depths)
    /\ (depths = [] -> m = 0).
Proof.
  intros Hb Hf Hp. exists (max_default depths 0).
  split.
  - unfold fetch_latest_reorg.
    destruct o as [x|[code [b|]]]; cbn in Hb; try discriminate Hb;
      cbn; destruct (code =? 200); try discriminate Hb.
    injection Hb as ->. cbn.
    destruct body; try discriminate Hf. cbn in Hf |- *. rewrite Hf. cbn.
    rewrite (comprehension_depths _ _ Hp). cbn.
    rewrite comprehension_as_int. reflexivity.
  - destruct depths as [|x l]; cbn [max_default].
    + split; [constructor|]. split; [congruence|reflexivity].
    + destruct (max_default_fold l x) as [Hin Hall].
      split; [exact Hall|]. split; [intros _; exact Hin|discriminate].
Qed.

Lemma latest_reorg_is_deepest_witness :
  exists m,
    fetch_latest_reorg (ok_response three_reorgs) = Returns (PInt m)
    /\ Forall (fun d => d <= m) [2; 6; 3]
    /\ ([2; 6; 3] <> [] -> In m [2; 6; 3])
    /\ ([2; 6; 3] = [] -> m = 0).
Proof.
  apply (latest_reorg_is_deepest (ok_response three_reorgs) three_reorgs
           [PDict [("depth", PInt 2)]; PDict [("depth", PInt 6)];
            PDict [("depth", PInt 3)]]
           [2; 6; 3]);
    reflexivity.
Defined.

(** ** What [fetch_all] raises *)

Lemma bind_Raises {A B} (c : result A) (k : A -> result B) (e : exn) :
  Py.bind c k = Raises e ->
  c = Raises e \/ exists a, c = Returns a /\ k a = Raises e.
Proof.
  destruct c; cbn; intros H; try discriminate H.
  - right. eauto.
  - left. injection H as ->. reflexivity.
Qed.

Lemma as_float_not_raises v e : as_float v <> Raises e.
Proof. destruct v; discriminate. Qed.

Lemma as_int_not_raises v e : as_int v <> Raises e.
Proof. destruct v; discriminate. Qed.

Lemma as_str_not_raises v e : as_str v <> Raises e.
Proof. destruct v; discriminate. Qed.

Lemma typed_pool_not_raises l e : typed_pool l <> Raises e.
Proof.
  unfold typed_pool. induction l as [|[n s] l IH]; cbn; [discriminate|].
  destruct n; cbn; try discriminate.
  destruct s; cbn; try discriminate.
  destruct (comprehension _ l); cbn; try discriminate.
  exact IH.
Qed.

Lemma typed_pool_nil l : typed_pool l = Returns [] -> l = [].
Proof.
  destruct l as [|[n s] l]; [reflexivity|].
  unfold typed_pool. cbn.
  destruct n; cbn; try discriminate.
  destruct s; cbn; try discriminate.
  destruct (comprehension _ l); cbn; discriminate.
Qed.

Lemma score_raises self n pool e :
  calculate_withholding_score self n pool = Raises e ->
  (e = OverflowError /\ float_of_int n = Raises OverflowError)
  \/ (e = ValueError /\ pool = []).
Proof.
  unfold calculate_withholding_score, orphan_score, int_truediv.
  unfold float_of_int at 1.
  destruct (binary_normalize prec emax n 0 false) eqn:En; cbn [Py.bind].
  2: { intros [= <-]. left. split; [reflexivity|].
       unfold float_of_int. rewrite En. reflexivity. }
  all: destruct pool as [|p pool]; cbn [max_pool_share map max_of Py.bind];
    [intros [= <-]; right; auto|];
    destruct (seed_offset_returns self) as (o & Ho & _); rewrite Ho;
    discriminate.
Qed.

Lemma fetch_all_raises self env e :
  fetch_all self env = Raises e ->
  (e = KeyboardInterrupt
   /\ hashrate_api env = GetRaises KeyboardInterrupt)
  \/ (e = OverflowError
      /\ exists n,
           fetch_orphaned_blocks (orphaned_api env) = Returns (PInt n)
           /\ float_of_int n = Raises OverflowError)
  \/ (e = ValueError
      /\ fetch_pool_distribution (pools_api env) = Returns []).
Proof.
  intros H. unfold fetch_all in H.
  apply bind_Raises in H. destruct H as [H|(h & Hh & H)].
  { left. exact (fetch_network_hashrate_raises _ _ _ H). }
  apply bind_Raises in H. destruct H as [H|(p & Hp & H)].
  { exact (False_ind _ (fetch_pool_distribution_never_raises _ _ H)). }
  apply bind_Raises in H. destruct H as [H|(ob & Hob & H)].
  { exact (False_ind _ (fetch_orphaned_blocks_never_raises _ _ H)). }
  apply bind_Raises in H. destruct H as [H|(rd & Hrd & H)].
  { exact (False_ind _ (fetch_latest_reorg_never_raises _ _ H)). }
  apply bind_Raises in H. destruct H as [H|(xp & Hxp & H)].
  { exact (False_ind _ (fetch_xmr_price_never_raises _ _ H)). }
  apply bind_Raises in H. destruct H as [H|(h' & Hh' & H)].
  { exact (False_ind _ (as_float_not_raises _ _ H)). }
  apply bind_Raises in H. destruct H as [H|(p' & Hp' & H)].
  { exact (False_ind _ (typed_pool_not_raises _ _ H)). }
  apply bind_Raises in H. destruct H as [H|(n & Hn & H)].
  { exact (False_ind _ (as_int_not_raises _ _ H)). }
  apply bind_Raises in H. destruct H as [H|(rd' & Hrd' & H)].
  { exact (False_ind _ (as_int_not_raises _ _ H)). }
  apply bind_Raises in H. destruct H as [H|(xp' & Hxp' & H)].
  { exact (False_ind _ (as_float_not_raises _ _ H)). }
  cbv zeta in H.
  apply bind_Raises in H. destruct H as [H|(sc & _ & H)];
    [|discriminate H].
  right. apply score_raises in H. destruct H as [[-> H]|[-> ->]].
  - left. split; [reflexivity|]. exists n. split; [|exact H].
    destruct ob; try discriminate Hn. injection Hn as <-. exact Hob.
  - right. split; [reflexivity|].
    apply typed_pool_nil in Hp'. subst p. exact Hp.
Qed.

(** X8: [fetch_all] raises only three exceptions: [KeyboardInterrupt],
    exactly when the primary hashrate request is interrupted (an interrupt
    of any other request is swallowed); [OverflowError], when the orphan
    count is too large for a float; [ValueError], when the pool list is
    empty. *)
Theorem fetch_all_exceptions (self : JetskiTrackerClient) (env : network) :
  (fetch_all self env = Raises KeyboardInterrupt
   <-> hashrate_api env = GetRaises KeyboardInterrupt)
  /\ (forall e, fetch_all self env = Raises e ->
        e = KeyboardInterrupt
        \/ (e = OverflowError
            /\ exists n,
                 fetch_orphaned_blocks (orphaned_api env) = Returns (PInt n)
                 /\ float_of_int n = Raises OverflowError)
        \/ (e = ValueError
            /\ fetch_pool_distribution (pools_api env) = Returns [])).
Proof.
  split.
  - split.
    + intros H.
      destruct (fetch_all_raises _ _ _ H) as [[_ H1]|[[H1 _]|[H1 _]]];
        [exact H1 | discriminate H1 | discriminate H1].
    + intros H. unfold fetch_all. rewrite H. reflexivity.
  - intros e H. destruct (fetch_all_raises _ _ _ H) as [[H1 _]|[H1|H1]]; auto.
Qed.

(** X9: every snapshot that [fetch_all] returns is consistent: its raw
    fields are what the fetchers returned, its pool distribution is not
    empty, its score is the score of its own count and distribution, and
    its time stamp is the clock's. *)
Theorem snapshot_is_consistent (self : JetskiTrackerClient) (env : network)
    (data : JetskiTrackerData) :
  fetch_all self env = Returns data ->
  fetch_network_hashrate (hashrate_api env) (hashrate_fallback env)
  = Returns (PFloat (network_hashrate data))
  /\ fetch_orphaned_blocks (orphaned_api env)
     = Returns (PInt (orphaned_blocks data))
  /\ fetch_latest_reorg (reorgs_api env)
     = Returns (PInt (last_reorg_depth data))
  /\ fetch_xmr_price (price_api env) = Returns (PFloat (xmr_price data))
  /\ pool_distribution data <> []
  /\ calculate_withholding_score self (orphaned_blocks data)
       (pool_distribution data)
     = Returns (block_withholding_score data)
  /\ timestamp data = time_time env.
Proof.
  unfold fetch_all. intros H.
  apply bind_Returns in H. destruct H as (h & Hh & H).
  apply bind_Returns in H. destruct H as (p & Hp & H).
  apply bind_Returns in H. destruct H as (ob & Hob & H).
  apply bind_Returns in H. destruct H as (rd & Hrd & H).
  apply bind_Returns in H. destruct H as (xp & Hxp & H).
  apply bind_Returns in H. destruct H as (h' & Hh' & H).
  apply bind_Returns in H. destruct H as (p' & Hp' & H).
  apply bind_Returns in H. destruct H as (n & Hn & H).
  apply bind_Returns in H. destruct H as (rd' & Hrd' & H).
  apply bind_Returns in H. destruct H as (xp' & Hxp' & H).
  cbv zeta in H.
  apply bind_Returns in H. destruct H as (sc & Hsc & H).
  injection H as <-. cbn.
  destruct h; try discriminate Hh'. injection Hh' as <-.
  destruct ob; try discriminate Hn. injection Hn as <-.
  destruct rd; try discriminate Hrd'. injection Hrd' as <-.
  destruct xp; try discriminate Hxp'. injection Hxp' as <-.
  repeat split; try assumption.
  intros ->. unfold calculate_withholding_score in Hsc.
  destruct (orphan_score _); discriminate Hsc.
Qed.

Lemma snapshot_is_consistent_witness :
  fetch_network_hashrate (hashrate_api all_down) (hashrate_fallback all_down)
  = Returns (PFloat (network_hashrate all_down_snapshot))
  /\ fetch_orphaned_blocks (orphaned_api all_down)
     = Returns (PInt (orphaned_blocks all_down_snapshot))
  /\ fetch_latest_reorg (reorgs_api all_down)
     = Returns (PInt (last_reorg_depth all_down_snapshot))
  /\ fetch_xmr_price (price_api all_down)
     = Returns (PFloat (xmr_price all_down_snapshot))
  /\ pool_distribution all_down_snapshot <> []
  /\ calculate_withholding_score (new_client 1069)
       (orphaned_blocks all_down_snapshot)
       (pool_distribution all_down_snapshot)
     = Returns (block_withholding_score all_down_snapshot)
  /\ timestamp all_down_snapshot = time_time all_down.
Proof.
  apply (snapshot_is_consistent (new_client 1069) all_down
           all_down_snapshot).
  vm_compute. reflexivity.
Defined.

(** ** Live data reaches the snapshot *)

Lemma body_of_inv o body :
  body_of o = Some body ->
  exists r, o = GetReturns r /\ (status_code r =? 200) = true
            /\ json r = Some body.
Proof.
  destruct o as [e|r]; cbn; [discriminate|].
  destruct (status_code r =? 200) eqn:E; [|discriminate].
  intros H. exists r. auto.
Qed.

Lemma field_get body k v default :
  field body k = Some v -> Py.get body k default = Returns v.
Proof.
  destruct body; cbn; try discriminate. intros ->. reflexivity.
Qed.

Lemma field_subscript body k v :
  field body k = Some v -> subscript body k = Returns v.
Proof.
  destruct body; cbn; try discriminate. intros ->. reflexivity.
Qed.

Lemma typed_untyped_pool pools : typed_pool (untyped_pool pools) = Returns pools.
Proof.
  unfold typed_pool, untyped_pool.
  induction pools as [|[name share] pools IH]; [reflexivity|].
  cbn [map comprehension fst snd as_str as_float Py.bind].
  rewrite IH. reflexivity.
Qed.

Lemma score_returns self n pool :
  pool <> [] -> returns (float_of_int n) = true ->
  exists score, calculate_withholding_score self n pool = Returns score.
Proof.
  intros Hp Hc. unfold calculate_withholding_score, orphan_score, int_truediv.
  destruct (float_of_int n) as [x| |]; try discriminate Hc.
  cbn [Py.bind].
  destruct (max_of_returns (map snd pool)) as [m Hm].
  { destruct pool; [congruence | discriminate]. }
  unfold max_pool_share. rewrite Hm. cbn [Py.bind].
  destruct (seed_offset_returns self) as (o & Ho & _).
  rewrite Ho. cbn [Py.bind]. eauto.
Qed.

(** X10: live data reaches the snapshot: when every endpoint answers 200
    with a well-formed document (a float hashrate, a non-empty list of
    pools with string names and float shares, an integer orphan count that
    converts to a float, reorg entries with integer depths, a float price),
    [fetch_all] returns a snapshot that holds exactly these values, the
    largest reorg depth, and no default. *)
Theorem live_data_reaches_snapshot (self : JetskiTrackerClient)
    (env : network) (hashrate_doc pools_doc orphaned_doc reorgs_doc
       price_doc monero : pyval)
    (hashrate price : float) (pools : list (string * float))
    (pool_items reorg_items : list pyval) (orphans : Z) (depths : list Z) :
  body_of (hashrate_api env) = Some hashrate_doc ->
  field hashrate_doc "hashrate_ghs" = Some (PFloat hashrate) ->
  body_of (pools_api env) = Some pools_doc ->
  field pools_doc "pools" = Some (PList pool_items) ->
  map pool_entry pool_items = map Some (untyped_pool pools) ->
  pools <> [] ->
  body_of (orphaned_api env) = Some orphaned_doc ->
  field orphaned_doc "orphaned_24h" = Some (PInt orphans) ->
  returns (float_of_int orphans) = true ->
  body_of (reorgs_api env) = Some reorgs_doc ->
  field reorgs_doc "reorgs" = Some (PList reorg_items) ->
  map reorg_depth reorg_items = map Some depths ->
  body_of (price_api env) = Some price_doc ->
  field price_doc "monero" = Some monero ->
  field monero "usd" = Some (PFloat price) ->
  exists data,
    fetch_all self env = Returns data
    /\ network_hashrate data = hashrate
    /\ pool_distribution data = pools
    /\ orphaned_blocks data = orphans
    /\ last_reorg_depth data = max_default depths 0
    /\ xmr_price data = price
    /\ qubic_hashrate data = (hashrate * qubic_share pools)%float
    /\ calculate_withholding_score self orphans pools
       = Returns (block_withholding_score data).
Proof.
  intros Hh Hhf Hp Hpf Hpe Hne Ho Hof Hoc Hr Hrf Hrd Hx Hxm Hxu.
  destruct (score_returns self orphans pools Hne Hoc) as [score Hs].
  apply body_of_inv in Hh, Hp, Ho, Hr, Hx.
  destruct Hh as (rh & Eh & Ch & Jh). destruct Hp as (rp & Ep & Cp & Jp).
  destruct Ho as (ro & Eo & Co & Jo). destruct Hr as (rr & Er & Cr & Jr).
  destruct Hx as (rx & Ex & Cx & Jx).
  assert (F1 : fetch_network_hashrate (hashrate_api env)
                 (hashrate_fallback env) = Returns (PFloat hashrate)).
  { unfold fetch_network_hashrate. rewrite Eh. cbn [session_get Py.bind].
    rewrite Ch. unfold response_json. rewrite Jh. cbn [Py.bind].
    rewrite (field_get _ _ _ _ Hhf). reflexivity. }
  assert (F2 : fetch_pool_distribution (pools_api env)
               = Returns (untyped_pool pools)).
  { unfold fetch_pool_distribution. rewrite Ep. cbn [session_get Py.bind].
    rewrite Cp. unfold response_json. rewrite Jp. cbn [Py.bind].
    rewrite (field_get _ _ _ _ Hpf). cbn [Py.bind Py.iter].
    rewrite (comprehension_entries _ _ Hpe). reflexivity. }
  assert (F3 : fetch_orphaned_blocks (orphaned_api env)
               = Returns (PInt orphans)).
  { unfold fetch_orphaned_blocks. rewrite Eo. cbn [session_get Py.bind].
    rewrite Co. unfold response_json. rewrite Jo. cbn [Py.bind].
    rewrite (field_get _ _ _ _ Hof). reflexivity. }
  assert (F4 : fetch_latest_reorg (reorgs_api env)
               = Returns (PInt (max_default depths 0))).
  { unfold fetch_latest_reorg. rewrite Er. cbn [session_get Py.bind].
    rewrite Cr. unfold response_json. rewrite Jr. cbn [Py.bind].
    rewrite (field_get _ _ _ _ Hrf). cbn [Py.bind Py.iter].
    rewrite (comprehension_depths _ _ Hrd). cbn [Py.bind].
    rewrite comprehension_as_int. reflexivity. }
  assert (F5 : fetch_xmr_price (price_api env) = Returns (PFloat price)).
  { unfold fetch_xmr_price. rewrite Ex. cbn [session_get Py.bind].
    rewrite Cx. unfold response_json. rewrite Jx. cbn [Py.bind].
    rewrite (field_subscript _ _ _ Hxm). cbn [Py.bind].
    rewrite (field_subscript _ _ _ Hxu). reflexivity. }
  unfold fetch_all. rewrite F1, F2, F3, F4, F5.
  cbn [Py.bind as_float as_int]. rewrite typed_untyped_pool.
  cbn [Py.bind]. rewrite Hs. cbn [Py.bind].
  eexists. split; [reflexivity|]. cbn. repeat split.
Qed.

Lemma live_data_reaches_snapshot_witness :
  exists data,
    fetch_all (new_client 1069) all_up = Returns data
    /\ network_hashrate data = 5.2%float
    /\ pool_distribution data
       = [("Qubic", 0.45%float); ("Others", 0.55%float)]
    /\ orphaned_blocks data = 18
    /\ last_reorg_depth data = max_default [2; 6; 3] 0
    /\ xmr_price data = 150%float
    /\ qubic_hashrate data
       = (5.2 * qubic_share [("Qubic", 0.45%float); ("Others", 0.55%float)])
           %float
    /\ calculate_withholding_score (new_client 1069) 18
         [("Qubic", 0.45%float); ("Others", 0.55%float)]
       = Returns (block_withholding_score data).
Proof.
  apply (live_data_reaches_snapshot (new_client 1069) all_up
           (PDict [("hashrate_ghs", PFloat 5.2)]) two_pools
           (PDict [("orphaned_24h", PInt 18)]) three_reorgs
           (PDict [("monero", PDict [("usd", PFloat 150)])])
           (PDict [("usd", PFloat 150)])
           5.2%float 150%float
           [("Qubic", 0.45%float); ("Others", 0.55%float)]
           [PDict [("name", PStr "Qubic"); ("share", PFloat 0.45)];
            PDict [("name", PStr "Others"); ("share", PFloat 0.55)]]
           [PDict [("depth", PInt 2)]; PDict [("depth", PInt 6)];
            PDict [("depth", PInt 3)]]
           18 [2; 6; 3]);
    try reflexivity.
  discriminate.
Defined.

(** ** The watch loop and the single fetch *)





Lemma watch_body_interrupt a client t w w' :
  watch_body a client t w = (w', Raises KeyboardInterrupt) ->
  ctrl_c t = true \/ hashrate_api (net t) = GetRaises KeyboardInterrupt.
Proof.
  unfold watch_body.
  destruct (fetch_all client (net t)) as [data|e|] eqn:Ef.
  - destruct (network_hashrate data =? 0)%float; [discriminate|].
    unfold save, sleep. destruct (open_fails t); [discriminate|].
    destruct ((interval a <? - sleep_max) || (sleep_max <? interval a));
      [discriminate|].
    destruct (interval a <? 0); [discriminate|].
    destruct (ctrl_c t); [auto|discriminate].
  - intros [= <- ->]. right.
    destruct (fetch_all_raises _ _ _ Ef) as [[_ H]|[[H _]|[H _]]];
      [exact H | discriminate H | discriminate H].
  - discriminate.
Qed.

Lemma watch_loop_exited a client ticks w w' :
  watch_loop a client ticks w = (w', Exited) ->
  hd_error (console w') = Some MonitoringStopped
  /\ Exists (fun t => ctrl_c t = true
                      \/ hashrate_api (net t) = GetRaises KeyboardInterrupt)
       ticks.
Proof.
  revert w. induction ticks as [|t ticks IH]; intros w; cbn [watch_loop].
  - discriminate.
  - destruct (watch_body a client t w) as [w1 [u|e|]] eqn:Eb.
    + intros H. destruct (IH _ H) as [H1 H2]. split; [exact H1|].
      apply Exists_cons_tl, H2.
    + destruct e; try discriminate.
      intros [= <-]. split; [reflexivity|].
      apply Exists_cons_hd. eapply watch_body_interrupt; eauto.
    + discriminate.
Qed.

(** X12: the watch loop returns only through an interrupt: when [main]
    returns in watch mode, the last line printed is the one of the
    [except KeyboardInterrupt] handler, and in some round Ctrl+C arrived
    during the sleep or during the primary hashrate request.  (An interrupt
    during any other request does not stop the loop.) *)
Theorem watch_returns_only_on_interrupt (a : args) (ticks : list tick)
    (w w' : world) :
  watch a = true ->
  main a ticks w = (w', Exited) ->
  hd_error (console w') = Some MonitoringStopped
  /\ Exists (fun t => ctrl_c t = true
                      \/ hashrate_api (net t) = GetRaises KeyboardInterrupt)
       ticks.
Proof.
  intros Hw. unfold main. rewrite Hw. apply watch_loop_exited.
Qed.

Lemma watch_returns_only_on_interrupt_witness :
  hd_error
    (console
       (print MonitoringStopped
          {| output_file := Some (JsonDump all_down_snapshot);
             console := [ThreatLine LOW; ThreatLine LOW] |}))
  = Some MonitoringStopped
  /\ Exists (fun t => ctrl_c t = true
                      \/ hashrate_api (net t) = GetRaises KeyboardInterrupt)
       [quiet_tick; interrupted_tick].
Proof.
  apply (watch_returns_only_on_interrupt watch_args
           [quiet_tick; interrupted_tick] fresh_world
           (print MonitoringStopped
              {| output_file := Some (JsonDump all_down_snapshot);
                 console := [ThreatLine LOW; ThreatLine LOW] |})).
  - reflexivity.
  - vm_compute. reflexivity.
Defined.

(** X13: a network hashrate of zero (0.0 or -0.0) stops the watch mode with
    [ZeroDivisionError], in the display of the share, before anything is
    written; the single fetch, which does not display the share, saves the
    same snapshot. *)
Theorem zero_hashrate_stops_watch_only (a : args) (t : tick)
    (rest : list tick) (w : world) (data : JetskiTrackerData) :
  fetch_all (new_client (arg_seed a)) (net t) = Returns data ->
  (network_hashrate data =? 0)%float = true ->
  (watch a = true -> main a (t :: rest) w = (w, Crashed ZeroDivisionError))
  /\ (watch a = false -> open_fails t = false ->
      main a (t :: rest) w
      = (print DataSaved
           {| output_file := Some (written a data); console := console w |},
         Exited)).
Proof.
  intros Hf Hz. unfold main. split.
  - intros ->. cbn [watch_loop]. unfold watch_body. rewrite Hf, Hz.
    reflexivity.
  - intros -> Ho. unfold single_fetch, save. rewrite Hf, Ho. reflexivity.
Qed.

Lemma zero_hashrate_stops_watch_only_witness :
  main watch_args [zero_hashrate_tick; quiet_tick] fresh_world
  = (fresh_world, Crashed ZeroDivisionError)
  /\ main single_args [zero_hashrate_tick; quiet_tick] fresh_world
     = (print DataSaved
          {| output_file := Some (written single_args zero_hashrate_snapshot);
             console := console fresh_world |},
        Exited).
Proof.
  split.
  - apply (proj1 (zero_hashrate_stops_watch_only watch_args
                    zero_hashrate_tick [quiet_tick] fresh_world
                    zero_hashrate_snapshot
                    ltac:(vm_compute; reflexivity) ltac:(reflexivity))).
    reflexivity.
  - apply (proj2 (zero_hashrate_stops_watch_only single_args
                    zero_hashrate_tick [quiet_tick] fresh_world
                    zero_hashrate_snapshot
                    ltac:(vm_compute; reflexivity) ltac:(reflexivity)));
      reflexivity.
Defined.

(** ** What ends the watch loop with an exception *)





(** ** The order of binary64 numbers *)

Ltac compare_cases :=
  repeat match goal with
  | |- context [Pos.compare_cont Eq ?a ?b] =>
      change (Pos.compare_cont Eq a b) with (Pos.compare a b)
  | H : context [Pos.compare_cont Eq ?a ?b] |- _ =>
      change (Pos.compare_cont Eq a b) with (Pos.compare a b) in H
  end;
  repeat match goal with
  | |- context [Z.compare ?a ?b] => destruct (Z.compare_spec a b)
  | H : context [Z.compare ?a ?b] |- _ => destruct (Z.compare_spec a b)
  end;
  repeat match goal with
  | |- context [Pos.compare ?a ?b] => destruct (Pos.compare_spec a b)
  | H : context [Pos.compare ?a ?b] |- _ => destruct (Pos.compare_spec a b)
  end;
  cbn in *; subst; try discriminate; try reflexivity; try lia.

Lemma SFleb_trans x y z :
  SFleb x y = true -> SFleb y z = true -> SFleb x z = true.
Proof.
  unfold SFleb.
  destruct x as [sx|sx| |sx mx ex], y as [sy|sy| |sy my ey],
    z as [sz|sz| |sz mz ez];
    try destruct sx; try destruct sy; try destruct sz;
    cbn; try discriminate; try reflexivity.
  all: intros H1 H2; compare_cases.
Qed.

Lemma SFltb_leb_trans x y z :
  SFltb x y = true -> SFleb y z = true -> SFltb x z = true.
Proof.
  unfold SFltb, SFleb.
  destruct x as [sx|sx| |sx mx ex], y as [sy|sy| |sy my ey],
    z as [sz|sz| |sz mz ez];
    try destruct sx; try destruct sy; try destruct sz;
    cbn; try discriminate; try reflexivity.
  all: intros H1 H2; compare_cases.
Qed.

Lemma SFleb_antisym x y :
  SFleb x y = true -> SFleb y x = true ->
  x = y \/ (is_zero x = true /\ is_zero y = true).
Proof.
  unfold SFleb.
  destruct x as [sx|sx| |sx mx ex], y as [sy|sy| |sy my ey];
    try destruct sx; try destruct sy;
    cbn; try discriminate; auto.
  all: intros H1 H2; left; compare_cases.
Qed.

Lemma leb_trans x y z :
  (x <=? y)%float = true -> (y <=? z)%float = true ->
  (x <=? z)%float = true.
Proof. rewrite !leb_spec. apply SFleb_trans. Qed.

Lemma ltb_leb_trans x y z :
  (x <? y)%float = true -> (y <=? z)%float = true -> (x <? z)%float = true.
Proof. rewrite !ltb_spec, leb_spec. apply SFltb_leb_trans. Qed.

(** ** The threat assessment *)

(** X16: the threat assessment is monotone: a score that is not below
    another one is never assessed lower. *)
Theorem threat_assessment_monotone (s1 s2 : float) :
  (s1 <=? s2)%float = true ->
  threat_rank (threat_assessment s1) <= threat_rank (threat_assessment s2).
Proof.
  intros H. unfold threat_assessment.
  destruct (0.85 <? s1)%float eqn:E1.
  { rewrite (ltb_leb_trans _ _ _ E1 H). cbn. lia. }
  destruct (0.6 <? s1)%float eqn:E2.
  { rewrite (ltb_leb_trans _ _ _ E2 H).
    destruct (0.85 <? s2)%float; cbn; lia. }
  destruct (0.3 <? s1)%float eqn:E3.
  { rewrite (ltb_leb_trans _ _ _ E3 H).
    destruct (0.85 <? s2)%float; [cbn; lia|].
    destruct (0.6 <? s2)%float; cbn; lia. }
  destruct (0.85 <? s2)%float; [cbn; lia|].
  destruct (0.6 <? s2)%float; [cbn; lia|].
  destruct (0.3 <? s2)%float; cbn; lia.
Qed.

Lemma threat_assessment_monotone_witness :
  (0.5 <=? 0.7)%float = true
  /\ threat_rank (threat_assessment 0.5)
     <= threat_rank (threat_assessment 0.7).
Proof.
  split; [reflexivity|].
  apply (threat_assessment_monotone 0.5 0.7). reflexivity.
Defined.

(** ** The largest share *)

Lemma leb_refl x : not_nan x = true -> (x <=? x)%float = true.
Proof.
  intros H. rewrite leb_spec. apply SFleb_refl, not_nan_spec, H.
Qed.

Lemma max2_upper a b :
  not_nan a = true -> not_nan b = true ->
  (a <=? max2 a b)%float = true /\ (b <=? max2 a b)%float = true.
Proof.
  intros Ha Hb. unfold max2. destruct (a <? b)%float eqn:E.
  - split; [|apply leb_refl, Hb].
    rewrite leb_spec. rewrite ltb_spec in E. unfold SFleb.
    unfold SFltb in E. destruct (SFcompare _ _) as [[]|];
      try discriminate E. reflexivity.
  - split; [apply leb_refl, Ha|].
    rewrite leb_spec. rewrite ltb_spec in E.
    apply SFleb_of_not_ltb; auto using not_nan_spec.
Qed.

Lemma max2_not_nan a b :
  not_nan a = true -> not_nan b = true -> not_nan (max2 a b) = true.
Proof. intros Ha Hb. unfold max2. destruct (a <? b)%float; assumption. Qed.

Lemma fold_max2_spec l x :
  not_nan x = true -> Forall (fun y => not_nan y = true) l ->
  let m := fold_left max2 l x in
  In m (x :: l) /\ Forall (fun y => (y <=? m)%float = true) (x :: l).
Proof.
  revert x. induction l as [|y l IH]; intros x Hx Hl; cbn [fold_left].
  - split; [left; reflexivity|].
    constructor; [apply leb_refl, Hx|constructor].
  - inversion Hl as [|? ? Hy Hl']; subst.
    destruct (max2_upper x y Hx Hy) as [Hxm Hym].
    destruct (IH (max2 x y) (max2_not_nan _ _ Hx Hy) Hl') as [Hin Hall].
    inversion Hall as [|? ? Hhd Htl]; subst.
    split.
    + destruct Hin as [Hin|Hin]; [|right; right; exact Hin].
      rewrite <- Hin. unfold max2.
      destruct (x <? y)%float; [right; left|left]; reflexivity.
    + constructor; [eapply leb_trans; eauto|].
      constructor; [eapply leb_trans; eauto|exact Htl].
Qed.

(** X17: when no share is a NaN, the largest share that the score uses is a
    share of the distribution and no share is above it. *)
Theorem max_pool_share_is_largest (pool : list (string * float)) (m : float) :
  Forall (fun entry => not_nan (snd entry) = true) pool ->
  max_pool_share pool = Returns m ->
  In m (map snd pool)
  /\ Forall (fun entry => (snd entry <=? m)%float = true) pool.
Proof.
  intros Hn. unfold max_pool_share.
  destruct pool as [|[n x] pool]; [discriminate|].
  cbn [map snd max_of]. intros [= <-].
  inversion Hn as [|? ? Hx Hl]; subst. cbn [snd] in Hx.
  destruct (fold_max2_spec (map snd pool) x Hx) as [Hin Hall].
  { apply Forall_map. exact Hl. }
  split; [exact Hin|].
  inversion Hall as [|? ? Hhd Htl]; subst.
  constructor; [exact Hhd|]. apply Forall_map in Htl. exact Htl.
Qed.

Lemma max_pool_share_is_largest_witness :
  In 0.35%float (map snd baseline_distribution)
  /\ Forall (fun entry => (snd entry <=? 0.35)%float = true)
       baseline_distribution.
Proof.
  apply (max_pool_share_is_largest baseline_distribution 0.35%float).
  - repeat constructor.
  - vm_compute. reflexivity.
Defined.

(** ** The order of the pools *)

Lemma leb_antisym x y :
  (x <=? y)%float = true -> (y <=? x)%float = true ->
  x = y \/ (is_zero (Prim2SF x) = true /\ is_zero (Prim2SF y) = true).
Proof.
  rewrite !leb_spec. intros H1 H2.
  destruct (SFleb_antisym _ _ H1 H2) as [H|H]; [left|right; exact H].
  apply Prim2SF_inj, H.
Qed.

Lemma is_zero_float x :
  is_zero (Prim2SF x) = true -> x = 0%float \/ x = (-0)%float.
Proof.
  destruct (Prim2SF x) as [s| | |] eqn:E; try discriminate. intros _.
  destruct s; [right|left]; apply Prim2SF_inj; rewrite E; reflexivity.
Qed.

Lemma concentration_score_zero x :
  is_zero (Prim2SF x) = true -> concentration_score x = 0%float.
Proof.
  intros H. destruct (is_zero_float x H) as [-> | ->];
    vm_compute; reflexivity.
Qed.

Lemma max_of_permutation l l' m m' :
  Permutation l l' ->
  Forall (fun y => not_nan y = true) l ->
  max_of l = Returns m -> max_of l' = Returns m' ->
  m = m' \/ (is_zero (Prim2SF m) = true /\ is_zero (Prim2SF m') = true).
Proof.
  intros Hp Hl Hm Hm'.
  assert (Hl' : Forall (fun y => not_nan y = true) l')
    by (eapply Permutation_Forall; eauto).
  destruct l as [|x l]; [discriminate Hm|].
  destruct l' as [|x' l']; [discriminate Hm'|].
  cbn [max_of] in Hm, Hm'. injection Hm as <-. injection Hm' as <-.
  inversion Hl as [|? ? Hx Hxs]; subst.
  inversion Hl' as [|? ? Hx' Hxs']; subst.
  destruct (fold_max2_spec l x Hx Hxs) as [Hin Hall].
  destruct (fold_max2_spec l' x' Hx' Hxs') as [Hin' Hall'].
  rewrite Forall_forall in Hall, Hall'.
  apply leb_antisym.
  - apply Hall'. eapply Permutation_in; eauto.
  - apply Hall. eapply Permutation_in; [apply Permutation_sym|]; eauto.
Qed.

(** X18: the score does not depend on the order in which the pools are
    listed, as long as no share is a NaN. *)
Theorem score_ignores_pool_order (self : JetskiTrackerClient) (n : Z)
    (pool pool' : list (string * float)) :
  Permutation pool pool' ->
  Forall (fun entry => not_nan (snd entry) = true) pool ->
  calculate_withholding_score self n pool
  = calculate_withholding_score self n pool'.
Proof.
  intros Hp Hn. unfold calculate_withholding_score.
  destruct (orphan_score n) as [orphan| |]; cbn [Py.bind]; try reflexivity.
  unfold max_pool_share.
  assert (Hp' : Permutation (map snd pool) (map snd pool'))
    by (apply Permutation_map, Hp).
  assert (Hn' : Forall (fun y => not_nan y = true) (map snd pool))
    by (apply Forall_map, Hn).
  destruct (max_of (map snd pool)) as [m| |] eqn:Em.
  - destruct (max_of (map snd pool')) as [m'| |] eqn:Em'.
    + cbn [Py.bind].
      destruct (max_of_permutation _ _ _ _ Hp' Hn' Em Em') as [->|[Hz Hz']];
        [reflexivity|].
      rewrite (concentration_score_zero _ Hz),
        (concentration_score_zero _ Hz'). reflexivity.
    + exfalso. destruct (map snd pool') as [|? ?] eqn:E; [|discriminate Em'].
      apply Permutation_sym, Permutation_nil in Hp'. rewrite Hp' in Em.
      discriminate Em.
    + destruct (map snd pool'); discriminate Em'.
  - destruct (map snd pool) as [|? ?] eqn:E; [|discriminate Em].
    apply Permutation_nil in Hp'. rewrite Hp'. rewrite Em. reflexivity.
  - destruct (map snd pool); discriminate Em.
Qed.

Lemma score_ignores_pool_order_witness :
  calculate_withholding_score (new_client 1069) 18
    [("Qubic", 0.45%float); ("Others", 0.55%float)]
  = calculate_withholding_score (new_client 1069) 18
      [("Others", 0.55%float); ("Qubic", 0.45%float)].
Proof.
  apply (score_ignores_pool_order (new_client 1069) 18
           [("Qubic", 0.45%float); ("Others", 0.55%float)]
           [("Others", 0.55%float); ("Qubic", 0.45%float)]).
  - apply perm_swap.
  - repeat constructor.
Defined.

(** The hypothesis on NaNs is needed: a NaN share in front hides the
    others, behind them it is ignored. *)
Lemma nan_share_makes_order_matter :
  calculate_withholding_score (new_client 1069) 0
    [("A", nan); ("B", 0.5%float)]
  <> calculate_withholding_score (new_client 1069) 0
       [("B", 0.5%float); ("A", nan)].
Proof. vm_compute. discriminate. Qed.

(** ** Where the concentration risk starts *)

Lemma valid_finite s m e :
  valid_binary (S754_finite s m e) = true ->
  -1074 <= e
  /\ Zpos (digits2_pos m) <= 53
  /\ (-1074 < e -> Zpos (digits2_pos m) = 53).
Proof.
  cbn [SpecFloat.valid_binary]. unfold bounded, canonical_mantissa.
  intros H. apply andb_prop in H. destruct H as [H _].
  apply Z.eqb_eq in H. rewrite fexp_eq in H. lia.
Qed.

Lemma SFltb_finite_pos_inv m1 e1 m2 e2 :
  SFltb (S754_finite false m1 e1) (S754_finite false m2 e2) = true ->
  e1 < e2 \/ (e1 = e2 /\ Zpos m1 < Zpos m2).
Proof.
  unfold SFltb, SFcompare.
  change (Pos.compare_cont Eq m1 m2) with (Pos.compare m1 m2).
  destruct (Z.compare_spec e1 e2); try discriminate; [|lia].
  destruct (Pos.compare_spec m1 m2); try discriminate. lia.
Qed.

Lemma SFltb_finite_pos_false m1 e1 m2 e2 :
  SFltb (S754_finite false m1 e1) (S754_finite false m2 e2) = false ->
  e2 < e1 \/ (e1 = e2 /\ Zpos m2 <= Zpos m1).
Proof.
  unfold SFltb, SFcompare.
  change (Pos.compare_cont Eq m1 m2) with (Pos.compare m1 m2).
  destruct (Z.compare_spec e1 e2); try discriminate; [|lia].
  destruct (Pos.compare_spec m1 m2); try discriminate; lia.
Qed.

(** A valid number with the larger exponent has the larger mantissa, once
    the mantissas are aligned. *)
Lemma aligned_mantissa_lt m1 e1 m2 e2 :
  valid_binary (S754_finite false m1 e1) = true ->
  valid_binary (S754_finite false m2 e2) = true ->
  e1 < e2 ->
  Zpos m1 < Zpos m2 * 2 ^ (e2 - e1).
Proof.
  intros H1 H2 Hlt.
  destruct (valid_finite _ _ _ H1) as (He1 & Hd1 & _).
  destruct (valid_finite _ _ _ H2) as (_ & _ & Hd2).
  specialize (Hd2 ltac:(lia)).
  pose proof (digits2_pos_bounds m1) as [_ Hu1].
  pose proof (digits2_pos_bounds m2) as [Hl2 _].
  rewrite Hd2 in Hl2. change (53 - 1) with 52 in Hl2.
  assert (Hp1 : 2 ^ Zpos (digits2_pos m1) <= 2 ^ 53)
    by (apply Z.pow_le_mono_r; lia).
  assert (Hp2 : 2 ^ 1 <= 2 ^ (e2 - e1)) by (apply Z.pow_le_mono_r; lia).
  change (2 ^ 1) with 2 in Hp2.
  assert (H53 : 2 ^ 53 = 2 * 2 ^ 52) by reflexivity.
  assert (H52 : 0 < 2 ^ 52) by reflexivity.
  nia.
Qed.

Lemma SFltb_zero_of_leb r :
  SFleb (S754_finite false 1 (-1074)) r = true ->
  SFltb (S754_zero false) r = true.
Proof.
  destruct r as [s|s| |s m e]; try destruct s; cbn; try discriminate;
    reflexivity.
Qed.

Lemma SFltb_zero_neg r :
  has_sign true r -> SFltb (S754_zero false) r = false.
Proof.
  destruct r as [s|s| |s m e]; cbn; intros H; subst; try contradiction;
    reflexivity.
Qed.

(** The difference of two positive numbers is above zero when the first is
    the larger one... *)
Lemma SFsub_pos mx ex my ey :
  valid_binary (S754_finite false mx ex) = true ->
  valid_binary (S754_finite false my ey) = true ->
  SFltb (S754_finite false my ey) (S754_finite false mx ex) = true ->
  SFleb (S754_finite false 1 (-1074))
    (SFsub prec emax (S754_finite false mx ex) (S754_finite false my ey))
  = true.
Proof.
  intros Hx Hy Hlt. apply SFltb_finite_pos_inv in Hlt.
  destruct (valid_finite _ _ _ Hy) as (Hey & _ & _).
  unfold SFsub. cbv zeta. cbn [cond_Zopp].
  pose proof (shl_align_spec mx ex (Z.min ex ey)) as [Hxm _].
  pose proof (shl_align_spec my ey (Z.min ex ey)) as [Hym _].
  replace (Z.min ex ey) with ey in * by lia.
  replace (Z.max 0 (ey - ey)) with 0 in Hym by lia.
  replace (Z.max 0 (ex - ey)) with (ex - ey) in Hxm by lia.
  rewrite Z.pow_0_r, Z.mul_1_r in Hym.
  set (X := fst (shl_align mx ex ey)) in *.
  set (Y := fst (shl_align my ey ey)) in *.
  assert (Hpos : Zpos Y < Zpos X).
  { rewrite Hxm, Hym. destruct Hlt as [Hlt|[-> Hlt]].
    - apply aligned_mantissa_lt; assumption.
    - rewrite Z.sub_diag, Z.pow_0_r. lia. }
  destruct (Zpos X - Zpos Y) as [|p|p] eqn:E; try lia.
  cbn [binary_normalize]. apply binary_round_ge; [reflexivity|].
  apply (vle_intro _ _ _ _ (-1074)); [lia | lia |].
  pose proof (Z.pow_pos_nonneg 2 (ey - -1074) ltac:(lia) ltac:(lia)).
  change (-1074 - -1074) with 0. rewrite Z.pow_0_r. nia.
Qed.

(** ... and a zero or a number below zero when it is not. *)
Lemma SFsub_nonpos mx ex my ey :
  valid_binary (S754_finite false mx ex) = true ->
  valid_binary (S754_finite false my ey) = true ->
  SFltb (S754_finite false my ey) (S754_finite false mx ex) = false ->
  let d := SFsub prec emax (S754_finite false mx ex)
             (S754_finite false my ey) in
  d = S754_zero false \/ has_sign true d.
Proof.
  intros Hx Hy Hlt. apply SFltb_finite_pos_false in Hlt.
  unfold SFsub. cbv zeta. cbn [cond_Zopp].
  pose proof (shl_align_spec mx ex (Z.min ex ey)) as [Hxm _].
  pose proof (shl_align_spec my ey (Z.min ex ey)) as [Hym _].
  replace (Z.min ex ey) with ex in * by lia.
  replace (Z.max 0 (ex - ex)) with 0 in Hxm by lia.
  replace (Z.max 0 (ey - ex)) with (ey - ex) in Hym by lia.
  rewrite Z.pow_0_r, Z.mul_1_r in Hxm.
  set (X := fst (shl_align mx ex ex)) in *.
  set (Y := fst (shl_align my ey ex)) in *.
  assert (Hle : Zpos X <= Zpos Y).
  { rewrite Hxm, Hym. destruct Hlt as [Hlt|[<- Hlt]].
    - pose proof (aligned_mantissa_lt _ _ _ _ Hx Hy Hlt). lia.
    - rewrite Z.sub_diag, Z.pow_0_r. lia. }
  destruct (Zpos X - Zpos Y) as [|p|p] eqn:E; try lia.
  - left. reflexivity.
  - right. cbn [binary_normalize]. apply binary_round_sign.
Qed.

(** The division of a valid positive number by a number below one with a
    53-digit mantissa: the quotient that is rounded is not zero and is
    precise enough. *)
Lemma SFdiv_core_small_divisor md ed my ey :
  Zpos (digits2_pos md) <= 53 -> -1074 <= ed ->
  Zpos (digits2_pos my) = 53 -> ey <= -53 ->
  exists q e' l,
    SFdiv_core_binary prec emax (Zpos md) ed (Zpos my) ey = (q, e', l)
    /\ 0 < q /\ -1074 <= e' /\ e' <= fexp (digits q + e').
Proof.
  intros Hd Hed Hy Hey. unfold SFdiv_core_binary. cbv zeta.
  cbn [Zdigits2]. rewrite Hy.
  set (d1 := Zpos (digits2_pos md)) in *.
  assert (Hd1 : 1 <= d1) by (unfold d1; lia).
  set (e' := Z.min (fexp (d1 + ed - (53 + ey))) (ed - ey)).
  assert (He' : e' = Z.max (d1 + ed - ey - 106) (-1074))
    by (unfold e'; rewrite fexp_eq; lia).
  assert (Hs : 53 <= ed - ey - e') by lia.
  destruct (ed - ey - e') as [|s|s] eqn:Es; try lia.
  rewrite Z.shiftl_mul_pow2 by lia.
  destruct (Z.div_eucl (Zpos md * 2 ^ Zpos s) (Zpos my)) as [q r] eqn:E.
  assert (Hq : q = Zpos md * 2 ^ Zpos s / Zpos my)
    by (unfold Z.div; rewrite E; reflexivity).
  exists q, e', (new_location (Zpos my) r).
  split; [reflexivity|].
  pose proof (digits2_pos_bounds md) as [Hdl Hdu]. fold d1 in Hdl, Hdu.
  pose proof (digits2_pos_bounds my) as [Hyl Hyu]. rewrite Hy in Hyl, Hyu.
  assert (H53 : 0 < 2 ^ 53) by reflexivity.
  assert (Hpow : 2 ^ 53 <= 2 ^ Zpos s) by (apply Z.pow_le_mono_r; lia).
  assert (Hq1 : 1 <= q).
  { rewrite Hq. apply Z.div_le_lower_bound; [lia|]. nia. }
  split; [lia|]. split; [lia|].
  rewrite fexp_eq.
  destruct (Z_le_gt_dec (d1 + ed - ey - 106) (-1074)) as [Hsub|Hnorm];
    [lia|].
  assert (Hse : Zpos s = 106 - d1) by lia.
  assert (Hq52 : 2 ^ 52 <= q).
  { rewrite Hq. apply Z.div_le_lower_bound; [lia|].
    assert (Hbig : 2 ^ 105 <= Zpos md * 2 ^ Zpos s).
    { rewrite Hse.
      replace 105 with (d1 - 1 + (106 - d1)) by lia.
      rewrite Z.pow_add_r by lia.
      apply Z.mul_le_mono_nonneg_r; [|exact Hdl].
      apply Z.pow_nonneg. lia. }
    assert (H105 : 2 ^ 105 = 2 ^ 53 * 2 ^ 52) by reflexivity.
    assert (H52 : 0 < 2 ^ 52) by reflexivity.
    nia. }
  pose proof (digits_gt_of_le q 52 ltac:(lia) Hq52). lia.
Qed.

Lemma SFdiv_pos md ed my ey :
  valid_binary (S754_finite false md ed) = true ->
  Zpos (digits2_pos my) = 53 -> ey <= -53 ->
  SFleb (S754_finite false 1 (-1074))
    (SFdiv prec emax (S754_finite false md ed) (S754_finite false my ey))
  = true.
Proof.
  intros Hv Hy Hey.
  destruct (valid_finite _ _ _ Hv) as (Hed & Hd & _).
  destruct (SFdiv_core_small_divisor md ed my ey Hd Hed Hy Hey)
    as (q & e' & l & Hcore & Hq & He' & Hfexp).
  unfold SFdiv. rewrite Hcore. cbn [xorb].
  apply binary_round_aux_ge; [exact Hq | exact Hfexp | reflexivity |].
  apply (vle_intro _ _ _ _ (-1074)); [lia | lia |].
  pose proof (Z.pow_pos_nonneg 2 (e' - -1074) ltac:(lia) ltac:(lia)).
  change (-1074 - -1074) with 0. rewrite Z.pow_0_r. nia.
Qed.

Lemma SFsub_neg mx ex my ey :
  has_sign true
    (SFsub prec emax (S754_finite true mx ex) (S754_finite false my ey)).
Proof.
  unfold SFsub. cbv zeta. cbn [cond_Zopp Z.opp].
  set (X := fst (shl_align mx ex (Z.min ex ey))).
  set (Y := fst (shl_align my ey (Z.min ex ey))).
  destruct (Zneg X - Zpos Y) as [|p|p] eqn:E; try lia.
  cbn [binary_normalize]. apply binary_round_sign.
Qed.

Lemma SFsub_valid mx ex my ey sx sy :
  valid_binary
    (SFsub prec emax (S754_finite sx mx ex) (S754_finite sy my ey)) = true.
Proof. unfold SFsub. cbv zeta. apply binary_normalize_valid. Qed.

(** The quotient of [concentration_score] is above zero exactly when the
    share is above 0.3. *)
Lemma concentration_quotient_sign share :
  (0 <? (share - 0.3) / 0.2)%float = (0.3 <? share)%float.
Proof.
  rewrite !ltb_spec, div_spec, sub_spec.
  pose proof (Prim2SF_valid share) as Hv.
  change (Prim2SF 0) with (S754_zero false).
  change (Prim2SF 0.3) with (S754_finite false 5404319552844595 (-54)).
  change (Prim2SF 0.2) with (S754_finite false 7205759403792794 (-55)).
  unfold SF64div, SF64sub.
  destruct (Prim2SF share) as [s|s| |s m e].
  - destruct s; vm_compute; reflexivity.
  - destruct s; vm_compute; reflexivity.
  - vm_compute; reflexivity.
  - destruct s.
    + transitivity false; [|reflexivity].
      apply SFltb_zero_neg, SFdiv_sign, SFsub_neg.
    + pose proof (SFsub_valid m e 5404319552844595 (-54) false false)
        as Hdv.
      destruct (SFltb (S754_finite false 5404319552844595 (-54))
                  (S754_finite false m e)) eqn:E.
      * pose proof (SFsub_pos m e 5404319552844595 (-54) Hv
                      ltac:(reflexivity) E) as Hd.
        destruct (SFsub prec emax (S754_finite false m e)
                    (S754_finite false 5404319552844595 (-54)))
          as [sd|sd| |sd md ed]; try destruct sd; try discriminate Hd.
        -- reflexivity.
        -- apply SFltb_zero_of_leb, SFdiv_pos;
             [exact Hdv | reflexivity | lia].
      * destruct (SFsub_nonpos m e 5404319552844595 (-54) Hv
                    ltac:(reflexivity) E) as [Hd|Hd].
        -- rewrite Hd. reflexivity.
        -- apply SFltb_zero_neg, SFdiv_sign, Hd.
Qed.

(** X19: the concentration component is above zero exactly when the largest
    share is above 0.3 (the float nearest to it); for every other share,
    NaN and minus infinity included, it is exactly 0. *)
Theorem concentration_starts_above_0_3 (share : float) :
  (0 <? concentration_score share)%float = (0.3 <? share)%float
  /\ ((0.3 <? share)%float = false -> concentration_score share = 0%float).
Proof.
  pose proof (concentration_quotient_sign share) as H.
  unfold concentration_score, max2.
  destruct (0 <? (share - 0.3) / 0.2)%float eqn:E.
  - split; [rewrite E; exact H|]. intros H'. congruence.
  - split; [rewrite <- H; reflexivity|]. reflexivity.
Qed.

(** ** Scores and threat levels *)

Lemma score_from_components self n pool score :
  calculate_withholding_score self n pool = Returns score ->
  exists orphan share offset,
    orphan_score n = Returns orphan
    /\ max_pool_share pool = Returns share
    /\ seed_offset self = Returns offset
    /\ score = min2 (combined orphan (concentration_score share) + offset) 1.
Proof.
  unfold calculate_withholding_score. intros H.
  apply bind_Returns in H. destruct H as (orphan & Ho & H).
  apply bind_Returns in H. destruct H as (share & Hs & H).
  cbv zeta in H.
  apply bind_Returns in H. destruct H as (offset & Hf & H).
  injection H as <-. exists orphan, share, offset. auto.
Qed.

Lemma min2_one_ge b s :
  (b <=? 1)%float = true -> (b <=? s)%float = true ->
  (b <=? min2 s 1)%float = true.
Proof. intros H1 H2. unfold min2. destruct (1 <? s)%float; assumption. Qed.

(** X20: from 20 orphaned blocks on, the score is at least 0.7 and the threat
    assessment is HIGH or CRITICAL, whatever the pool distribution and the
    seed are. *)
Theorem many_orphans_at_least_high (self : JetskiTrackerClient) (n : Z)
    (pool : list (string * float)) (score : float) :
  20 <= n ->
  calculate_withholding_score self n pool = Returns score ->
  (0.7 <=? score)%float = true
  /\ (threat_assessment score = HIGH \/ threat_assessment score = CRITICAL).
Proof.
  intros Hn H.
  destruct (score_from_components _ _ _ _ H)
    as (orphan & share & offset & Ho & _ & Hf & ->).
  apply (orphan_score_saturates n orphan Hn) in Ho. subst orphan.
  destruct (seed_offset_returns self) as (o & Ho & Hfin & _).
  rewrite Ho in Hf. injection Hf as <-.
  unfold combined. change (1 * 0.7)%float with 0.7%float.
  set (t := (concentration_score share * 0.3)%float).
  assert (Ht : fnonneg t = true)
    by (apply mul_nonneg;
        [apply concentration_score_nonneg | apply fpositive_0_3]).
  assert (H1 : (0.7 <=? 0.7 + t)%float = true).
  { rewrite leb_spec, add_spec. apply SFadd_ge_l.
    - apply Prim2SF_valid.
    - reflexivity.
    - exact Ht. }
  assert (Hc : fnonneg (0.7 + t) = true)
    by (apply add_nonneg; [reflexivity | exact Ht]).
  assert (H2 : (0.7 + t <=? 0.7 + t + o)%float = true)
    by (apply add_ge; [apply fnonneg_not_nan, Hc | exact Hfin]).
  assert (Hs : (0.7 <=? min2 (0.7 + t + o) 1)%float = true).
  { apply min2_one_ge; [reflexivity|]. eapply leb_trans; eauto. }
  split; [exact Hs|].
  assert (H6 : (0.6 <? min2 (0.7 + t + o) 1)%float = true)
    by (eapply ltb_leb_trans; [|exact Hs]; reflexivity).
  unfold threat_assessment. rewrite H6.
  destruct (0.85 <? _)%float; auto.
Qed.

Lemma many_orphans_at_least_high_witness :
  (0.7 <=? 0.7069)%float = true
  /\ (threat_assessment 0.7069 = HIGH
      \/ threat_assessment 0.7069 = CRITICAL).
Proof.
  apply (many_orphans_at_least_high (new_client 1069) 25
           [("Others", 0.2%float)] 0.7069%float).
  - lia.
  - vm_compute. reflexivity.
Defined.

Lemma below_20 (P : Z -> bool) :
  forallb P counts_below_20 = true ->
  forall k, 0 <= k < 20 -> P k = true.
Proof.
  intros H k Hk. rewrite forallb_forall in H. apply H.
  unfold counts_below_20. apply in_map_iff. exists (Z.to_nat k).
  split; [lia|]. apply in_seq. lia.
Qed.

Lemma concentration_score_low share :
  (0.3 <? share)%float = false -> concentration_score share = 0%float.
Proof.
  intros H. unfold concentration_score, max2.
  rewrite concentration_quotient_sign, H. reflexivity.
Qed.

(** The score when the concentration component is zero, for an orphan
    component and a seed offset. *)
Lemma score_without_concentration self n pool share score :
  max_pool_share pool = Returns share ->
  (0.3 <? share)%float = false ->
  calculate_withholding_score self n pool = Returns score ->
  exists orphan offset,
    orphan_score n = Returns orphan
    /\ seed_offset self = Returns offset
    /\ score = min2 (combined orphan 0 + offset) 1.
Proof.
  intros Hs Hlow H.
  destruct (score_from_components _ _ _ _ H)
    as (orphan & share' & offset & Ho & Hs' & Hf & ->).
  rewrite Hs in Hs'. injection Hs' as <-.
  rewrite (concentration_score_low _ Hlow).
  exists orphan, offset. auto.
Qed.

(** X21: orphaned blocks alone never give a CRITICAL assessment: when no
    pool has a share above 0.3, the score is at most 0.7099, whatever the
    orphan count (from 0 on) and the seed are. *)
Theorem orphans_alone_never_critical (self : JetskiTrackerClient) (n : Z)
    (pool : list (string * float)) (share score : float) :
  0 <= n ->
  max_pool_share pool = Returns share ->
  (0.3 <? share)%float = false ->
  calculate_withholding_score self n pool = Returns score ->
  (score <=? 0.7099)%float = true /\ threat_assessment score <> CRITICAL.
Proof.
  intros Hn Hs Hlow H.
  destruct (score_without_concentration _ _ _ _ _ Hs Hlow H)
    as (orphan & offset & Ho & Hf & ->).
  set (ok := fun orphan o =>
               let s := min2 (combined orphan 0 + o) 1 in
               ((s <=? 0.7099) && negb (0.85 <? s))%float).
  enough (Hok : ok orphan offset = true).
  { unfold ok in Hok. cbv zeta in Hok. apply andb_prop in Hok.
    destruct Hok as [H1 H2]. split; [exact H1|].
    unfold threat_assessment. apply negb_true_iff in H2. rewrite H2.
    clear. destruct (0.6 <? _)%float; [discriminate|].
    destruct (0.3 <? _)%float; discriminate. }
  destruct (Z_lt_le_dec n 20) as [Hlt|Hge].
  - pose proof (below_20
                  (fun k =>
                     match orphan_score k with
                     | Returns orphan =>
                         forallb (fun r =>
                                    match int_truediv r 10000 with
                                    | Returns o => ok orphan o
                                    | _ => false
                                    end) residues
                     | _ => false
                     end)
                  ltac:(vm_compute; reflexivity) n ltac:(lia)) as Hk.
    cbv beta in Hk. rewrite Ho in Hk.
    pose proof (Z.mod_pos_bound (seed self) 100 ltac:(lia)) as Hb.
    pose proof (below_100 _ Hk _ Hb) as Hr. cbv beta in Hr.
    unfold seed_offset in Hf. rewrite Hf in Hr. exact Hr.
  - apply (orphan_score_saturates n orphan Hge) in Ho. subst orphan.
    destruct (seed_offset_enum (ok 1%float) ltac:(vm_compute; reflexivity)
                self) as (o & Ho & HP).
    rewrite Ho in Hf. injection Hf as <-. exact HP.
Qed.

Lemma orphans_alone_never_critical_witness :
  (0.6369 <=? 0.7099)%float = true /\ threat_assessment 0.6369 <> CRITICAL.
Proof.
  apply (orphans_alone_never_critical (new_client 1069) 18
           [("Qubic", 0.15%float); ("Others", 0.3%float)]
           0.3%float 0.6369%float).
  - lia.
  - vm_compute. reflexivity.
  - reflexivity.
  - vm_compute. reflexivity.
Defined.

(** X22: the score depends on the seed through its residue modulo 100 only:
    seeds that differ by a multiple of 100 give the same result, seeds below
    zero included. *)
Theorem score_is_periodic_in_seed (s k n : Z)
    (pool : list (string * float)) :
  calculate_withholding_score (new_client (s + 100 * k)) n pool
  = calculate_withholding_score (new_client s) n pool.
Proof.
  unfold calculate_withholding_score, seed_offset. cbn [seed new_client].
  replace ((s + 100 * k) mod 100) with (s mod 100); [reflexivity|].
  rewrite (Z.mul_comm 100 k), Z_mod_plus_full. reflexivity.
Qed.

(** ** The score is never above 1 *)

(** A count below zero converts to a number that is at most -1. *)
Lemma float_of_int_neg n x :
  n < 0 -> float_of_int n = Returns x ->
  exists mx ex,
    Prim2SF x = S754_finite true mx ex
    /\ 1 <= Zpos (digits2_pos mx) + ex.
Proof.
  intros Hn Hx.
  pose proof (float_of_int_spec n x Hx) as Hs.
  pose proof (Prim2SF_valid x) as Hv.
  destruct n as [|p|p]; try lia.
  cbn [binary_normalize] in Hs. rewrite binary_round_opp in Hs.
  assert (Hle : SFleb (S754_finite false 4503599627370496 (-52))
                  (binary_round prec emax false p 0) = true).
  { apply binary_round_ge; [reflexivity|].
    apply (vle_intro _ _ _ _ (-52)); [lia | lia |].
    change (-52 - -52) with 0. change (0 - -52) with 52.
    rewrite Z.pow_0_r, Z.mul_1_r.
    change (Zpos 4503599627370496) with (2 ^ 52).
    assert (0 < 2 ^ 52) by reflexivity. nia. }
  destruct (binary_round prec emax false p 0) as [s|s| |s m e] eqn:E;
    try destruct s; try discriminate Hle.
  - exfalso. unfold float_of_int in Hx. cbn [binary_normalize] in Hx.
    rewrite binary_round_opp, E in Hx. discriminate Hx.
  - cbn [SFopp negb] in Hs. exists m, e. split; [exact Hs|].
    rewrite Hs in Hv. destruct (valid_finite _ _ _ Hv) as (_ & _ & Hd).
    apply SFleb_finite_pos_inv in Hle.
    destruct Hle as [Hlt|[<- Hm]].
    + rewrite Hd by lia. lia.
    + change (Zpos 4503599627370496) with (2 ^ 52) in Hm.
      pose proof (digits_gt_of_le (Zpos m) 52 ltac:(lia) Hm) as Hdm.
      cbn [Zdigits2] in Hdm. lia.
Qed.

(** Dividing a number that is at most -1 by 20.0 gives a number that is
    not below it. *)
Lemma SFdiv_twenty_neg mx ex :
  valid_binary (S754_finite true mx ex) = true ->
  1 <= Zpos (digits2_pos mx) + ex ->
  SFleb (S754_finite true mx ex)
    (SFdiv prec emax (S754_finite true mx ex)
       (S754_finite false twenty_mantissa (-48))) = true.
Proof.
  intros Hv Hmag.
  destruct (valid_finite _ _ _ Hv) as (Hex & Hd & _).
  unfold SFdiv, SFdiv_core_binary. cbv zeta. cbn [Zdigits2 xorb].
  change (Zpos (digits2_pos twenty_mantissa)) with 53.
  set (d1 := Zpos (digits2_pos mx)) in *.
  assert (Hd1 : 1 <= d1) by (unfold d1; lia).
  set (e' := Z.min (fexp (d1 + ex - (53 + -48))) (ex - -48)).
  assert (He' : e' = d1 + ex - 58) by (unfold e'; rewrite fexp_eq; lia).
  assert (Hs : ex - -48 - e' = 106 - d1) by lia.
  destruct (ex - -48 - e') as [|s|s] eqn:Es; try lia.
  rewrite Z.shiftl_mul_pow2 by lia.
  destruct (Z.div_eucl (Zpos mx * 2 ^ Zpos s) (Zpos twenty_mantissa))
    as [q r] eqn:E.
  assert (Hq : q = Zpos mx * 2 ^ Zpos s / Zpos twenty_mantissa)
    by (unfold Z.div; rewrite E; reflexivity).
  pose proof (digits2_pos_bounds mx) as [Hdl Hdu]. fold d1 in Hdl, Hdu.
  assert (Hbig : 2 ^ 105 <= Zpos mx * 2 ^ Zpos s).
  { rewrite Hs. replace 105 with (d1 - 1 + (106 - d1)) by lia.
    rewrite Z.pow_add_r by lia.
    apply Z.mul_le_mono_nonneg_r; [|exact Hdl].
    apply Z.pow_nonneg. lia. }
  assert (H20 : Zpos twenty_mantissa = 20 * 2 ^ 48) by reflexivity.
  assert (H48 : 0 < 2 ^ 48) by reflexivity.
  assert (H105 : 2 ^ 105 = 2 ^ 53 * 2 ^ 52) by reflexivity.
  assert (H53 : 2 ^ 53 = 32 * 2 ^ 48) by reflexivity.
  assert (H52 : 0 < 2 ^ 52) by reflexivity.
  assert (Hq52 : 2 ^ 52 <= q).
  { rewrite Hq. apply Z.div_le_lower_bound; [lia|]. nia. }
  assert (Hqm : q * Zpos twenty_mantissa <= Zpos mx * 2 ^ Zpos s).
  { rewrite Hq, Z.mul_comm. apply Z.mul_div_le. lia. }
  pose proof (digits_gt_of_le q 52 ltac:(lia) Hq52) as Hdq.
  apply binary_round_aux_le.
  - lia.
  - rewrite fexp_eq. lia.
  - exact Hv.
  - apply (vlt_intro _ _ _ _ e'); [lia | lia |].
    rewrite Z.sub_diag, Z.pow_0_r, Z.mul_1_r.
    replace (ex - e') with (Zpos s - 48) by lia.
    assert (Hsplit : 2 ^ Zpos s = 2 ^ (Zpos s - 48) * 2 ^ 48).
    { rewrite <- Z.pow_add_r by lia. f_equal. lia. }
    pose proof (Z.pow_pos_nonneg 2 (Zpos s - 48) ltac:(lia) ltac:(lia)).
    nia.
Qed.

(** Multiplying a number below zero by 0.7 gives a number that is not
    below it. *)
Lemma SFmul_0_7_neg my ey :
  valid_binary (S754_finite true my ey) = true ->
  SFleb (S754_finite true my ey)
    (SFmul prec emax (S754_finite true my ey)
       (S754_finite false 6305039478318694 (-53))) = true.
Proof.
  intros Hv. unfold SFmul. cbn [xorb].
  assert (H07l : 2 ^ 52 <= Zpos 6305039478318694) by (vm_compute; discriminate).
  assert (H07u : Zpos 6305039478318694 < 2 ^ 53) by reflexivity.
  assert (H52 : 0 < 2 ^ 52) by reflexivity.
  rewrite Pos2Z.inj_mul.
  assert (Hm : 2 ^ 52 <= Zpos my * Zpos 6305039478318694) by nia.
  pose proof (digits_gt_of_le _ 52 ltac:(lia) Hm) as Hdm.
  apply binary_round_aux_le.
  - lia.
  - rewrite fexp_eq. lia.
  - exact Hv.
  - apply (vlt_intro _ _ _ _ (ey + -53)); [lia | lia |].
    rewrite Z.sub_diag, Z.pow_0_r, Z.mul_1_r.
    replace (ey - (ey + -53)) with 53 by lia. nia.
Qed.

Lemma finite_of_leb_neg m e r :
  has_sign true r -> SFleb (S754_finite true m e) r = true ->
  finite_sf r = true.
Proof.
  destruct r as [s|s| |s mr er]; cbn [has_sign finite_sf]; intros Hs H;
    subst; try reflexivity; try contradiction.
  discriminate H.
Qed.

(** For a count below zero, the weighted orphan component is finite. *)
Lemma weighted_orphan_finite n orphan :
  n < 0 -> orphan_score n = Returns orphan ->
  finite_sf (Prim2SF (orphan * 0.7)) = true.
Proof.
  intros Hn. unfold orphan_score, int_truediv.
  destruct (float_of_int n) as [x| |] eqn:Ex; try discriminate.
  cbn [Py.bind]. intros [= <-].
  destruct (float_of_int_neg n x Hn Ex) as (mx & ex & Hx & Hmag).
  pose proof (Prim2SF_valid x) as Hvx. rewrite Hx in Hvx.
  pose proof (Prim2SF_valid (x / 20)) as Hvy.
  assert (Hy : Prim2SF (x / 20)
               = SFdiv prec emax (S754_finite true mx ex)
                   (S754_finite false twenty_mantissa (-48)))
    by (rewrite div_spec, Hx; reflexivity).
  pose proof (SFdiv_twenty_neg mx ex Hvx Hmag) as Hle.
  pose proof (SFdiv_sign true (S754_finite true mx ex) twenty_mantissa (-48)
                eq_refl) as Hsign.
  rewrite <- Hy in Hle, Hsign.
  assert (Hmin : min2 (x / 20) 1 = (x / 20)%float).
  { unfold min2. rewrite ltb_spec.
    destruct (Prim2SF (x / 20)) as [s|s| |s my ey];
      cbn [has_sign] in Hsign; subst; try contradiction; reflexivity. }
  rewrite Hmin, mul_spec.
  change (Prim2SF 0.7) with (S754_finite false 6305039478318694 (-53)).
  destruct (Prim2SF (x / 20)) as [s|s| |s my ey];
    cbn [has_sign] in Hsign; subst; try contradiction.
  - reflexivity.
  - discriminate Hle.
  - apply (finite_of_leb_neg my ey).
    + unfold SF64mul, SFmul. cbn [xorb]. apply binary_round_aux_sign. lia.
    + apply SFmul_0_7_neg, Hvy.
Qed.

Lemma SFadd_finite_nonneg a b :
  finite_sf a = true -> nonneg b = true -> SF64add a b <> S754_nan.
Proof.
  destruct a as [sa|sa| |sa ma ea]; try discriminate; intros _;
    destruct b as [sb|sb| |sb mb eb]; try discriminate; cbn [nonneg];
    intros Hb; try (apply negb_true_iff in Hb; subst sb);
    try (destruct sa; discriminate);
    try (destruct sa, sb; discriminate).
  unfold SF64add, SFadd.
  destruct (binary_normalize_sign
              (cond_Zopp sa (Zpos (fst (shl_align ma ea (Z.min ea eb))))
               + cond_Zopp false (Zpos (fst (shl_align mb eb (Z.min ea eb)))))
              (Z.min ea eb)) as [s Hs].
  apply (has_sign_not_nan s). exact Hs.
Qed.

Lemma not_nan_of_spec x : Prim2SF x <> S754_nan -> not_nan x = true.
Proof.
  intros H. unfold not_nan, is_nan. rewrite negb_involutive, eqb_spec.
  apply SFeqb_refl, H.
Qed.

Lemma leb_not_nan x y : (x <=? y)%float = true -> not_nan y = true.
Proof.
  rewrite leb_spec. intros H. apply not_nan_of_spec. intros E.
  rewrite E in H. destruct (Prim2SF x); discriminate H.
Qed.

Lemma min2_one_le s : not_nan s = true -> (min2 s 1 <=? 1)%float = true.
Proof.
  intros H. unfold min2. destruct (1 <? s)%float eqn:E; [reflexivity|].
  rewrite leb_spec. rewrite ltb_spec in E.
  apply SFleb_of_not_ltb; [discriminate | apply not_nan_spec, H | exact E].
Qed.

(** X23: the score is never above 1 and never a NaN: for every count that
    converts to a float, counts below zero included, and every non-empty
    pool distribution, whatever its shares are (NaN, infinite, negative),
    the score is returned and is at most 1; it is at least 0 when the count
    is. *)
Theorem score_never_above_one (self : JetskiTrackerClient) (n : Z)
    (pool : list (string * float)) :
  pool <> [] ->
  returns (float_of_int n) = true ->
  exists score,
    calculate_withholding_score self n pool = Returns score
    /\ (score <=? 1)%float = true
    /\ (0 <= n -> (0 <=? score)%float = true).
Proof.
  intros Hp Hc.
  destruct (Z_lt_le_dec n 0) as [Hneg|Hpos].
  2:{ destruct (score_unit_interval self n pool Hpos Hp Hc)
        as (score & Hs & H0 & H1).
      exists score. auto. }
  unfold calculate_withholding_score.
  destruct (orphan_score n) as [orphan| |] eqn:Eo.
  2,3: unfold orphan_score, int_truediv in Eo;
       destruct (float_of_int n); discriminate.
  cbn [Py.bind].
  destruct (max_of_returns (map snd pool)) as [m Hm].
  { destruct pool; [congruence | discriminate]. }
  unfold max_pool_share. rewrite Hm. cbn [Py.bind].
  destruct (seed_offset_returns self) as (o & Ho & Hfin & _).
  rewrite Ho. cbn [Py.bind]. eexists. split; [reflexivity|].
  split; [|lia].
  apply min2_one_le.
  apply (leb_not_nan (combined orphan (concentration_score m))).
  apply add_ge; [|exact Hfin].
  apply not_nan_of_spec. unfold combined. rewrite add_spec.
  apply SFadd_finite_nonneg.
  - eapply weighted_orphan_finite; eauto.
  - apply mul_nonneg;
      [apply concentration_score_nonneg | apply fpositive_0_3].
Qed.

Lemma score_never_above_one_witness :
  exists score,
    calculate_withholding_score (new_client 1069) (-40)
      [("A", nan); ("B", infinity); ("C", (-1)%float)] = Returns score
    /\ (score <=? 1)%float = true
    /\ (0 <= -40 -> (0 <=? score)%float = true).
Proof.
  apply (score_never_above_one (new_client 1069) (-40)
           [("A", nan); ("B", infinity); ("C", (-1)%float)]).
  - discriminate.
  - vm_compute. reflexivity.
Defined.
